(** * Realtime console: session lifecycle and event channel of [App.jsx]

    A shallow embedding of the [App] component of
    [src/client/components/App.jsx]: the functions [startSession],
    [stopSession], [sendClientEvent], [sendTextMessage] and the data-channel
    listeners [handleMessage], [handleOpen] and [handleClose], over an explicit
    model of the browser objects they drive.

    - JavaScript values are a tree-shaped universe ([JsValue]); numbers are
      IEEE-754 values in the axiom-free representation [spec_float].
    - JSON text is kept as its document tree ([Json]); [JSON_stringify] and
      [JSON_parse] go between the two.
    - Browser objects (peer connections, data channels, audio elements, media
      tracks) live in a store and are referred to by handle, because the
      component keeps them in refs and React state and mutates them in place.
    - Code that may throw runs in a state-and-exception monad [M].
    - The component functions are closures of one call of [App()]: they see the
      [dataChannel] constant of that render, not the latest state.  The captured
      value is the [Render] argument of each function.
    - What the browser and the network answer during one [startSession] is an
      input of the run ([StartEnv]); the values of [crypto.randomUUID()] and
      [toLocaleTimeString()] are inputs of each send ([Ambient]).  A call
      of a component function is one transition; the listeners the browser
      invokes between two awaited steps are transitions of their own. *)

From Stdlib Require Import String List PeanoNat SpecFloat.
From stdpp Require Import base option list.

#[local] Set Warnings "-register-all".
Local Open Scope string_scope.
Local Open Scope list_scope.

(** ** JavaScript values *)

Module JS.

Inductive JsValue : Type :=
| JUndefined
| JNull
| JBool (b : bool)
| JNum (x : spec_float)
| JStr (s : string)
| JArr (elems : list JsValue) (named : list (string * JsValue))
| JObj (props : list (string * JsValue)).

(** A plain object: its own properties in insertion order. *)
Definition JsObject : Type := list (string * JsValue).

(** An exception value: the error's [name] and [message]. *)
Record JsError : Type := Err { err_name : string; err_message : string }.

Definition TypeError (msg : string) : JsError := Err "TypeError" msg.
Definition SyntaxError (msg : string) : JsError := Err "SyntaxError" msg.
Definition Error (msg : string) : JsError := Err "Error" msg.
Definition DOMException (name : string) : JsError := Err name EmptyString.

Inductive Completion (A : Type) : Type :=
| Normal (a : A)
| Throw (e : JsError).
Arguments Normal {A} a.
Arguments Throw {A} e.

(** ToBoolean: [undefined], [null], [false], [+0], [-0], [NaN] and the empty
    string are falsy, every other value is truthy. *)
Definition truthy (v : JsValue) : bool :=
  match v with
  | JUndefined | JNull => false
  | JBool b => b
  | JNum (S754_zero _) | JNum S754_nan => false
  | JNum _ => true
  | JStr s => negb (String.eqb s EmptyString)
  | JArr _ _ | JObj _ => true
  end.

(** [a || b], with [b] already evaluated (both right operands in the component
    are free of side effects on the model). *)
Definition js_or (a b : JsValue) : JsValue := if truthy a then a else b.

Fixpoint lookup_prop (k : string) (o : JsObject) : JsValue :=
  match o with
  | [] => JUndefined
  | (k', v) :: o' => if String.eqb k k' then v else lookup_prop k o'
  end.

(** [o[k] = v] on own properties: an existing key keeps its position, a new key
    goes last. *)
Fixpoint assign_prop (k : string) (v : JsValue) (o : JsObject) : JsObject :=
  match o with
  | [] => [(k, v)]
  | (k', v') :: o' =>
      if String.eqb k k' then (k', v) :: o' else (k', v') :: assign_prop k v o'
  end.

Definition has_prop (k : string) (o : JsObject) : bool :=
  existsb (fun kv => String.eqb k kv.1) o.

(** [v.k] for a key that is neither an array index nor a built-in property
    (the component only reads [client_secret], [value], [event_id] and
    [timestamp]): reading from [null] or [undefined] throws, a primitive has no
    such property. *)
Definition get_prop (v : JsValue) (k : string) : Completion JsValue :=
  match v with
  | JUndefined => Throw (TypeError "Cannot read properties of undefined")
  | JNull => Throw (TypeError "Cannot read properties of null")
  | JBool _ | JNum _ | JStr _ => Normal JUndefined
  | JArr _ named => Normal (lookup_prop k named)
  | JObj props => Normal (lookup_prop k props)
  end.

(** [v.k = x] in strict mode (the file is an ES module): assignment to a
    property of a primitive throws. *)
Definition set_prop (v : JsValue) (k : string) (x : JsValue) : Completion JsValue :=
  match v with
  | JUndefined => Throw (TypeError "Cannot set properties of undefined")
  | JNull => Throw (TypeError "Cannot set properties of null")
  | JBool _ | JNum _ | JStr _ => Throw (TypeError "Cannot create property")
  | JArr elems named => Normal (JArr elems (assign_prop k x named))
  | JObj props => Normal (JObj (assign_prop k x props))
  end.

(** ** JSON documents *)

Inductive Json : Type :=
| JsonNull
| JsonBool (b : bool)
| JsonNumber (x : spec_float)
| JsonString (s : string)
| JsonArray (items : list Json)
| JsonObject (members : list (string * Json)).

(** A text sent over the network or the data channel: a JSON document, or any
    other text (an SDP body, a malformed message). *)
Inductive Payload : Type :=
| JsonText (j : Json)
| OtherText (s : string).

Definition json_number (x : spec_float) : Json :=
  match x with
  | S754_zero _ => JsonNumber (S754_zero false)
  | S754_finite _ _ _ => JsonNumber x
  | S754_infinity _ | S754_nan => JsonNull
  end.

(** [JSON.stringify]: [undefined] has no JSON text; a property whose value is
    [undefined] is left out; an [undefined] array element and a non-finite
    number become [null]; named properties of an array are not serialized. *)
Fixpoint JSON_stringify (v : JsValue) : option Json :=
  match v with
  | JUndefined => None
  | JNull => Some JsonNull
  | JBool b => Some (JsonBool b)
  | JNum x => Some (json_number x)
  | JStr s => Some (JsonString s)
  | JArr elems _ =>
      Some (JsonArray (map (fun e => default JsonNull (JSON_stringify e)) elems))
  | JObj props =>
      Some (JsonObject
              (omap (fun kv => match JSON_stringify kv.2 with
                               | Some j => Some (kv.1, j)
                               | None => None
                               end) props))
  end.

(** The string handed to [send] or used as a request body:
    [JSON.stringify(v)], which is the string "undefined" after conversion when
    [v] has no JSON text. *)
Definition serialized (v : JsValue) : Payload :=
  match JSON_stringify v with
  | Some j => JsonText j
  | None => OtherText "undefined"
  end.

(** [JSON.parse] on a document: members are defined in order, so a repeated key
    keeps its first position and its last value. *)
Fixpoint JSON_parse (j : Json) : JsValue :=
  match j with
  | JsonNull => JNull
  | JsonBool b => JBool b
  | JsonNumber x => JNum x
  | JsonString s => JStr s
  | JsonArray items => JArr (map JSON_parse items) []
  | JsonObject members =>
      JObj (fold_left (fun o kv => assign_prop kv.1 kv.2 o)
                      (map (fun kv => (kv.1, JSON_parse kv.2)) members) [])
  end.

(** [JSON.parse(text)]: a text that is not a JSON document is a syntax error. *)
Definition parse_payload (p : Payload) : Completion JsValue :=
  match p with
  | JsonText j => Normal (JSON_parse j)
  | OtherText _ => Throw (SyntaxError "Unexpected token")
  end.

Fixpoint lookup_member (k : string) (ms : list (string * Json)) : option Json :=
  match ms with
  | [] => None
  | (k', j) :: ms' => if String.eqb k k' then Some j else lookup_member k ms'
  end.

(** The member [k] of a payload that is a JSON object. *)
Definition payload_member (k : string) (p : Payload) : option Json :=
  match p with
  | JsonText (JsonObject ms) => lookup_member k ms
  | _ => None
  end.

End JS.
Export JS.

(** ** Browser objects and component state *)

Module Browser.

(** Browser objects are referred to by their position in the store. *)
Abbreviation handle := nat (only parsing).

(** [RTCDataChannel.readyState]. *)
Inductive ReadyState : Type := connecting | open | closing | closed.

Definition ReadyState_eqb (a b : ReadyState) : bool :=
  match a, b with
  | connecting, connecting | open, open | closing, closing | closed, closed => true
  | _, _ => false
  end.

(** A data channel: its label, its state, and the payloads handed to [send],
    oldest first. *)
Record RTCDataChannel : Type := {
  dc_label : string;
  readyState : ReadyState;
  dc_sent : list Payload }.

(** A media track; [track_ended] is set by [stop()]. *)
Record MediaStreamTrack : Type := { track_ended : bool }.

(** A peer connection: [pc_senders] holds the [track] of each sender,
    [pc_channels] the data channels created on it. *)
Record RTCPeerConnection : Type := {
  pc_closed : bool;
  pc_ontrack : bool;
  pc_senders : list (option handle);
  pc_channels : list handle;
  pc_localDescription : option string;
  pc_remoteDescription : option Payload }.

(** The playback sink, an [<audio>] element; [srcObject] names a remote
    stream. *)
Record HTMLAudioElement : Type := {
  autoplay : bool;
  srcObject : option nat;
  in_body : bool }.

(** A header value: a literal, or the template [`Bearer ${credential}`] with
    the interpolated value kept as it is. *)
Inductive HeaderValue : Type :=
| Literal (s : string)
| Bearer (credential : JsValue).

Record Request : Type := {
  req_url : string;
  req_method : string;
  req_headers : list (string * HeaderValue);
  req_body : Payload }.

Record Response : Type := { ok : bool; body : Payload }.

(** One [console.error(label, detail)] call. *)
Record ConsoleEntry : Type := { label : string; detail : option JsError }.

(** The state the component works on.  The first three fields are the React
    state, as left by the latest [set...] call; the next two are the [current]
    slots of the refs; then the browser objects by handle, the requests issued
    with [fetch] and the console, both oldest first. *)
Record World : Type := {
  isSessionActive : bool;
  events : list JsValue;
  dataChannel : option handle;
  peerConnection : option handle;
  audioElement : option handle;
  connections : list RTCPeerConnection;
  channels : list RTCDataChannel;
  audios : list HTMLAudioElement;
  tracks : list MediaStreamTrack;
  network : list Request;
  console : list ConsoleEntry }.

(** The closure of one call of [App()]: [dataChannel] is a [const] of that
    call, so [stopSession] and [sendClientEvent] read the value of the render
    they were created in. *)
Record Render : Type := { render_dataChannel : option handle }.

(** The closures handed to the UI by the latest render. *)
Definition current_render (w : World) : Render :=
  {| render_dataChannel := dataChannel w |}.

(** The state before the first session: [useState(false)], [useState([])],
    [useState(null)], [useRef(null)] twice, and no browser object. *)
Definition initial_world : World :=
  {| isSessionActive := false; events := []; dataChannel := None;
     peerConnection := None; audioElement := None;
     connections := []; channels := []; audios := []; tracks := [];
     network := []; console := [] |}.

(** The outcomes of the browser and the network during one [startSession]:
    each awaited promise resolves or rejects, and [env_channel_state] is the
    state the new channel has reached when the flow resumes after the
    answer has been applied. *)
Record StartEnv : Type := {
  env_sessions_fetch : Completion Response;
  env_getUserMedia : Completion unit;
  env_createOffer : Completion string;
  env_setLocalDescription : Completion unit;
  env_webrtc_fetch : Completion Response;
  env_setRemoteDescription : Completion unit;
  env_channel_state : ReadyState }.

(** *** Field updates *)

Definition with_isSessionActive (x : bool) (w : World) : World :=
  match w with
  | Build_World _ evs dch pcr aur conns chs auds trks net con =>
      Build_World x evs dch pcr aur conns chs auds trks net con
  end.

Definition with_events (x : list JsValue) (w : World) : World :=
  match w with
  | Build_World act _ dch pcr aur conns chs auds trks net con =>
      Build_World act x dch pcr aur conns chs auds trks net con
  end.

Definition with_dataChannel (x : option handle) (w : World) : World :=
  match w with
  | Build_World act evs _ pcr aur conns chs auds trks net con =>
      Build_World act evs x pcr aur conns chs auds trks net con
  end.

Definition with_peerConnection (x : option handle) (w : World) : World :=
  match w with
  | Build_World act evs dch _ aur conns chs auds trks net con =>
      Build_World act evs dch x aur conns chs auds trks net con
  end.

Definition with_audioElement (x : option handle) (w : World) : World :=
  match w with
  | Build_World act evs dch pcr _ conns chs auds trks net con =>
      Build_World act evs dch pcr x conns chs auds trks net con
  end.

Definition with_connections (x : list RTCPeerConnection) (w : World) : World :=
  match w with
  | Build_World act evs dch pcr aur _ chs auds trks net con =>
      Build_World act evs dch pcr aur x chs auds trks net con
  end.

Definition with_channels (x : list RTCDataChannel) (w : World) : World :=
  match w with
  | Build_World act evs dch pcr aur conns _ auds trks net con =>
      Build_World act evs dch pcr aur conns x auds trks net con
  end.

Definition with_audios (x : list HTMLAudioElement) (w : World) : World :=
  match w with
  | Build_World act evs dch pcr aur conns chs _ trks net con =>
      Build_World act evs dch pcr aur conns chs x trks net con
  end.

Definition with_tracks (x : list MediaStreamTrack) (w : World) : World :=
  match w with
  | Build_World act evs dch pcr aur conns chs auds _ net con =>
      Build_World act evs dch pcr aur conns chs auds x net con
  end.

Definition with_network (x : list Request) (w : World) : World :=
  match w with
  | Build_World act evs dch pcr aur conns chs auds trks _ con =>
      Build_World act evs dch pcr aur conns chs auds trks x con
  end.

Definition with_console (x : list ConsoleEntry) (w : World) : World :=
  match w with
  | Build_World act evs dch pcr aur conns chs auds trks net _ =>
      Build_World act evs dch pcr aur conns chs auds trks net x
  end.

(** *** The monad of component code: a state, and a normal or abrupt completion *)

Definition M (A : Type) : Type := World -> Completion A * World.

#[export] Instance M_ret : MRet M := fun A (a : A) (w : World) => (Normal a, w).

#[export] Instance M_bind : MBind M :=
  fun A B (f : A -> M B) (m : M A) (w : World) =>
    match m w with
    | (Normal a, w') => f a w'
    | (Throw e, w') => (Throw e, w')
    end.

Definition throw {A : Type} (e : JsError) : M A := fun w => (Throw e, w).

(** [try { body } catch (err) { handler }]. *)
Definition try_catch {A : Type} (body : M A) (handler : JsError -> M A) : M A :=
  fun w =>
    match body w with
    | (Normal a, w') => (Normal a, w')
    | (Throw e, w') => handler e w'
    end.

Definition read {A : Type} (f : World -> A) : M A := fun w => (Normal (f w), w).
Definition update (f : World -> World) : M unit := fun w => (Normal tt, f w).

(** [await p] for a promise whose outcome is given; a synchronous completion is
    lifted the same way. *)
Definition await {A : Type} (c : Completion A) : M A :=
  match c with
  | Normal a => mret a
  | Throw e => throw e
  end.

(** [list.forEach(f)]. *)
Fixpoint forEach {A : Type} (f : A -> M unit) (l : list A) : M unit :=
  match l with
  | [] => mret tt
  | x :: l' => f x ;; forEach f l'
  end.

(** The world a computation leaves, and how it completes. *)
Definition exec {A : Type} (m : M A) (w : World) : World := (m w).2.
Definition completion {A : Type} (m : M A) (w : World) : Completion A := (m w).1.

End Browser.
Export Browser.

(** ** The Web APIs the component calls *)

Module WebAPI.

(** *** React state setters and refs *)

Definition setIsSessionActive (b : bool) : M unit := update (with_isSessionActive b).

(** [setEvents(f)] with an updater function: [f] is applied to the latest
    state, whatever render the caller belongs to. *)
Definition setEvents (f : list JsValue -> list JsValue) : M unit :=
  update (fun w => with_events (f (events w)) w).

Definition setDataChannel (d : option handle) : M unit := update (with_dataChannel d).

Definition peerConnection_current : M (option handle) := read peerConnection.
Definition set_peerConnection_current (p : option handle) : M unit :=
  update (with_peerConnection p).

Definition audioElement_current : M (option handle) := read audioElement.
Definition set_audioElement_current (a : option handle) : M unit :=
  update (with_audioElement a).

Definition console_error (l : string) (d : option JsError) : M unit :=
  update (fun w => with_console (console w ++ [{| label := l; detail := d |}]) w).

(** *** fetch *)

(** [fetch(url, init)]: the request goes out, then the promise settles. *)
Definition fetch (req : Request) (outcome : Completion Response) : M Response :=
  update (fun w => with_network (network w ++ [req]) w) ;; await outcome.

Definition response_json (r : Response) : M JsValue := await (parse_payload (body r)).
Definition response_text (r : Response) : M Payload := mret (body r).

(** *** Audio element *)

Definition fresh_audio : HTMLAudioElement :=
  {| autoplay := false; srcObject := None; in_body := false |}.

(** [document.createElement("audio")]. *)
Definition createElement_audio : M handle :=
  fun w => (Normal (length (audios w)), with_audios (audios w ++ [fresh_audio]) w).

Definition set_autoplay (a : handle) (b : bool) : M unit :=
  update (fun w => with_audios
    (alter (fun e => {| autoplay := b; srcObject := srcObject e; in_body := in_body e |})
           a (audios w)) w).

Definition set_srcObject (a : handle) (s : option nat) : M unit :=
  update (fun w => with_audios
    (alter (fun e => {| autoplay := autoplay e; srcObject := s; in_body := in_body e |})
           a (audios w)) w).

Definition set_in_body (b : bool) (e : HTMLAudioElement) : HTMLAudioElement :=
  {| autoplay := autoplay e; srcObject := srcObject e; in_body := b |}.

(** [document.body.appendChild(a)]. *)
Definition appendChild (a : handle) : M unit :=
  update (fun w => with_audios (alter (set_in_body true) a (audios w)) w).

(** [document.body.removeChild(a)].  The element in [audioElement.current] is
    appended when it is created and removed only here, so the call finds its
    child. *)
Definition removeChild (a : handle) : M unit :=
  update (fun w => with_audios (alter (set_in_body false) a (audios w)) w).

(** *** Media tracks *)

(** [navigator.mediaDevices.getUserMedia({ audio: true })] followed by
    [getAudioTracks()[0]]: a granted stream carries a live audio track. *)
Definition new_track : M handle :=
  fun w => (Normal (length (tracks w)),
            with_tracks (tracks w ++ [{| track_ended := false |}]) w).

Definition getUserMedia_audioTrack (outcome : Completion unit) : M handle :=
  await outcome ;; new_track.

(** [track.stop()]. *)
Definition track_stop (t : handle) : M unit :=
  update (fun w => with_tracks (alter (fun _ => {| track_ended := true |}) t (tracks w)) w).

(** *** Data channels *)

Definition set_readyState (s : ReadyState) (c : RTCDataChannel) : RTCDataChannel :=
  {| dc_label := dc_label c; readyState := s; dc_sent := dc_sent c |}.

Definition transmit (p : Payload) (c : RTCDataChannel) : RTCDataChannel :=
  {| dc_label := dc_label c; readyState := readyState c; dc_sent := dc_sent c ++ [p] |}.

(** [dc.readyState]. *)
Definition state_of (dc : handle) (w : World) : ReadyState :=
  match channels w !! dc with
  | Some c => readyState c
  | None => closed
  end.

Definition dc_readyState (dc : handle) : M ReadyState := read (state_of dc).

(** [dc.send(data)]: an [InvalidStateError] unless the channel is open.  The
    size limits of the transport are not part of the model. *)
Definition dc_send (dc : handle) (p : Payload) : M unit :=
  st ← dc_readyState dc;
  if ReadyState_eqb st open
  then update (fun w => with_channels (alter (transmit p) dc (channels w)) w)
  else throw (DOMException "InvalidStateError").

(** [dc.close()]: a channel that is not yet closing or closed starts
    closing. *)
Definition start_closing (c : RTCDataChannel) : RTCDataChannel :=
  match readyState c with
  | closing | closed => c
  | connecting | open => set_readyState closing c
  end.

Definition dc_close (dc : handle) : M unit :=
  update (fun w => with_channels (alter start_closing dc (channels w)) w).

(** The browser moves a channel to a new state while the component is
    suspended. *)
Definition browser_sets_readyState (dc : handle) (s : ReadyState) : M unit :=
  update (fun w => with_channels (alter (set_readyState s) dc (channels w)) w).

(** *** Peer connections *)

Definition fresh_connection : RTCPeerConnection :=
  {| pc_closed := false; pc_ontrack := false; pc_senders := []; pc_channels := [];
     pc_localDescription := None; pc_remoteDescription := None |}.

(** [new RTCPeerConnection()]. *)
Definition new_RTCPeerConnection : M handle :=
  fun w => (Normal (length (connections w)),
            with_connections (connections w ++ [fresh_connection]) w).

Definition alter_connection (f : RTCPeerConnection -> RTCPeerConnection) (pc : handle) : M unit :=
  update (fun w => with_connections (alter f pc (connections w)) w).

(** [pc.ontrack = handler]. *)
Definition set_ontrack (pc : handle) : M unit :=
  alter_connection (fun c =>
    {| pc_closed := pc_closed c; pc_ontrack := true; pc_senders := pc_senders c;
       pc_channels := pc_channels c; pc_localDescription := pc_localDescription c;
       pc_remoteDescription := pc_remoteDescription c |}) pc.

(** [pc.addTrack(track)] on a connection that is not closed. *)
Definition pc_addTrack (pc : handle) (t : handle) : M unit :=
  alter_connection (fun c =>
    {| pc_closed := pc_closed c; pc_ontrack := pc_ontrack c;
       pc_senders := pc_senders c ++ [Some t];
       pc_channels := pc_channels c; pc_localDescription := pc_localDescription c;
       pc_remoteDescription := pc_remoteDescription c |}) pc.

(** [pc.createDataChannel(label)] on a connection that is not closed. *)
Definition pc_createDataChannel (pc : handle) (l : string) : M handle :=
  dc ← read (fun w => length (channels w));
  update (fun w => with_channels
    (channels w ++ [{| dc_label := l; readyState := connecting; dc_sent := [] |}]) w) ;;
  alter_connection (fun c =>
    {| pc_closed := pc_closed c; pc_ontrack := pc_ontrack c; pc_senders := pc_senders c;
       pc_channels := pc_channels c ++ [dc];
       pc_localDescription := pc_localDescription c;
       pc_remoteDescription := pc_remoteDescription c |}) pc ;;
  mret dc.

Definition pc_createOffer (pc : handle) (outcome : Completion string) : M string :=
  await outcome.

Definition pc_setLocalDescription (pc : handle) (sdp : string) (outcome : Completion unit)
  : M unit :=
  await outcome ;;
  alter_connection (fun c =>
    {| pc_closed := pc_closed c; pc_ontrack := pc_ontrack c; pc_senders := pc_senders c;
       pc_channels := pc_channels c; pc_localDescription := Some sdp;
       pc_remoteDescription := pc_remoteDescription c |}) pc.

Definition pc_setRemoteDescription (pc : handle) (sdp : Payload) (outcome : Completion unit)
  : M unit :=
  await outcome ;;
  alter_connection (fun c =>
    {| pc_closed := pc_closed c; pc_ontrack := pc_ontrack c; pc_senders := pc_senders c;
       pc_channels := pc_channels c; pc_localDescription := pc_localDescription c;
       pc_remoteDescription := Some sdp |}) pc.

(** [pc.getSenders()]: the track of each sender, [None] for a sender without
    a track. *)
Definition senders_of (pc : handle) (w : World) : list (option handle) :=
  match connections w !! pc with
  | Some c => pc_senders c
  | None => []
  end.

Definition pc_getSenders (pc : handle) : M (list (option handle)) := read (senders_of pc).

Definition channels_of (pc : handle) (w : World) : list handle :=
  match connections w !! pc with
  | Some c => pc_channels c
  | None => []
  end.

Definition close_channels (dcs : list handle) (l : list RTCDataChannel) : list RTCDataChannel :=
  fold_right (fun dc acc => alter (set_readyState closed) dc acc) l dcs.

(** [pc.close()]: the connection is closed, and so is every data channel
    created on it. *)
Definition pc_close (pc : handle) : M unit :=
  update (fun w => with_channels (close_channels (channels_of pc w) (channels w)) w) ;;
  alter_connection (fun c =>
    {| pc_closed := true; pc_ontrack := pc_ontrack c; pc_senders := pc_senders c;
       pc_channels := pc_channels c; pc_localDescription := pc_localDescription c;
       pc_remoteDescription := pc_remoteDescription c |}) pc.

End WebAPI.
Export WebAPI.

(** ** The component *)

Module App.

(** What the runtime returns during one call of [sendClientEvent] or of the
    message listener: [crypto.randomUUID()] and
    [new Date().toLocaleTimeString()]. *)
Record Ambient : Type := { randomUUID : string; toLocaleTimeString : string }.

Definition DEPLOYMENT : string := "process.env.DEPLOYMENT".
Definition VOICE : string := "verse".

(** The callback of [getSenders().forEach]:
    [if (sender.track) sender.track.stop()]. *)
Definition stop_sender_track (sender : option handle) : M unit :=
  match sender with
  | Some track => track_stop track
  | None => mret tt
  end.

Definition stopSession (r : Render) : M unit :=
  match render_dataChannel r with
  | Some dc => dc_close dc ;; setDataChannel None
  | None => mret tt
  end ;;
  pc ← peerConnection_current;
  match pc with
  | Some pc =>
      senders ← pc_getSenders pc;
      forEach stop_sender_track senders ;;
      pc_close pc ;;
      set_peerConnection_current None
  | None => mret tt
  end ;;
  a ← audioElement_current;
  match a with
  | Some a =>
      set_srcObject a None ;;
      removeChild a ;;
      set_audioElement_current None
  | None => mret tt
  end ;;
  setIsSessionActive false.

(** The two assignments of [sendClientEvent] on the caller's object. *)
Definition stamp (amb : Ambient) (message : JsObject) : JsObject :=
  let timestamp := toLocaleTimeString amb in
  let message :=
    assign_prop "event_id"
      (js_or (lookup_prop "event_id" message) (JStr (randomUUID amb))) message in
  assign_prop "timestamp"
    (js_or (lookup_prop "timestamp" message) (JStr timestamp)) message.

Definition sendClientEvent (r : Render) (amb : Ambient) (message : JsObject) : M unit :=
  let not_ready := console_error "Failed to send message - data channel not ready" None in
  match render_dataChannel r with
  | Some dc =>
      st ← dc_readyState dc;
      if ReadyState_eqb st open then
        let message := stamp amb message in
        dc_send dc (serialized (JObj message)) ;;
        setEvents (fun prev => JObj message :: prev)
      else not_ready
  | None => not_ready
  end.

Definition conversation_item_create (message : JsValue) : JsObject :=
  [("type", JStr "conversation.item.create");
   ("item", JObj [("type", JStr "message");
                  ("role", JStr "user");
                  ("content", JArr [JObj [("type", JStr "input_text");
                                          ("text", message)]] [])])].

Definition response_create : JsObject := [("type", JStr "response.create")].

Definition sendTextMessage (r : Render) (amb1 amb2 : Ambient) (message : JsValue) : M unit :=
  let event := conversation_item_create message in
  sendClientEvent r amb1 event ;;
  sendClientEvent r amb2 response_create.

(** The listeners the effect attaches to the data channel. *)
Definition handleMessage (amb : Ambient) (data : Payload) : M unit :=
  event ← await (parse_payload data);
  timestamp ← await (get_prop event "timestamp");
  event ← await (set_prop event "timestamp"
                   (js_or timestamp (JStr (toLocaleTimeString amb))));
  setEvents (fun prev => event :: prev).

Definition handleOpen : M unit :=
  setIsSessionActive true ;;
  setEvents (fun _ => []).

Definition handleClose : M unit := setIsSessionActive false.

Definition initEvent : JsObject :=
  [("type", JStr "session.update");
   ("session", JObj [("instructions",
      JStr "You are a helpful AI assistant responding in natural, engaging language.")])].

(** [sessionData.client_secret?.value]. *)
Definition client_secret_value (sessionData : JsValue) : Completion JsValue :=
  match get_prop sessionData "client_secret" with
  | Throw e => Throw e
  | Normal JUndefined | Normal JNull => Normal JUndefined
  | Normal client_secret => get_prop client_secret "value"
  end.

Section Configuration.

(** [process.env.WEBRTC_URL], [process.env.SESSIONS_URL] and
    [process.env.AZURE_OPENAI_API_KEY], fixed when the bundle is built. *)
Variables WEBRTC_URL SESSIONS_URL API_KEY : string.

Definition sessions_request : Request :=
  {| req_url := SESSIONS_URL;
     req_method := "POST";
     req_headers := [("api-key", Literal API_KEY);
                     ("Content-Type", Literal "application/json")];
     req_body := serialized (JObj [("model", JStr DEPLOYMENT); ("voice", JStr VOICE)]) |}.

Definition webrtc_request (EPHEMERAL_KEY : JsValue) (offer_sdp : string) : Request :=
  {| req_url := WEBRTC_URL ++ "?model=" ++ DEPLOYMENT;
     req_method := "POST";
     req_headers := [("Authorization", Bearer EPHEMERAL_KEY);
                     ("Content-Type", Literal "application/sdp")];
     req_body := OtherText offer_sdp |}.

(** The [try] block of [startSession].  The step [browser_sets_readyState]
    is not a statement of the source: it records the state the browser has
    brought the new channel to while the block was suspended, which the test
    [dc.readyState === "open"] then reads. *)
Definition startSession_try (env : StartEnv) : M unit :=
  sessionResponse ← fetch sessions_request (env_sessions_fetch env);
  (if negb (ok sessionResponse)
   then throw (Error "Failed to create session")
   else mret tt) ;;
  sessionData ← response_json sessionResponse;
  EPHEMERAL_KEY ← await (client_secret_value sessionData);
  pc ← new_RTCPeerConnection;
  set_peerConnection_current (Some pc) ;;
  a ← createElement_audio;
  set_audioElement_current (Some a) ;;
  set_autoplay a true ;;
  appendChild a ;;
  set_ontrack pc ;;
  try_catch
    (track ← getUserMedia_audioTrack (env_getUserMedia env);
     pc_addTrack pc track)
    (fun err => console_error "Error accessing microphone:" (Some err)) ;;
  dc ← pc_createDataChannel pc "azure-oai-events";
  setDataChannel (Some dc) ;;
  offer ← pc_createOffer pc (env_createOffer env);
  pc_setLocalDescription pc offer (env_setLocalDescription env) ;;
  sdpResponse ← fetch (webrtc_request EPHEMERAL_KEY offer) (env_webrtc_fetch env);
  (if negb (ok sdpResponse)
   then throw (Error "Failed to establish WebRTC connection")
   else mret tt) ;;
  answer_sdp ← response_text sdpResponse;
  pc_setRemoteDescription pc answer_sdp (env_setRemoteDescription env) ;;
  browser_sets_readyState dc (env_channel_state env) ;;
  st ← dc_readyState dc;
  if ReadyState_eqb st open
  then dc_send dc (serialized (JObj initEvent))
  else mret tt.

(** [startSession]: the block above, and its [catch] clause, which calls the
    [stopSession] of the same render. *)
Definition startSession (r : Render) (env : StartEnv) : M unit :=
  try_catch
    (startSession_try env)
    (fun error =>
       console_error "Session error:" (Some error) ;;
       stopSession r).

End Configuration.

End App.
Export App.

(** ** Sample runs *)

Module Samples.

Definition amb0 : Ambient :=
  {| randomUUID := "3f2c"; toLocaleTimeString := "10:15:00 AM" |}.

Definition credential_body : Payload :=
  JsonText (JsonObject [("client_secret", JsonObject [("value", JsonString "ek_1")])]).

Definition good_env : StartEnv :=
  {| env_sessions_fetch := Normal {| ok := true; body := credential_body |};
     env_getUserMedia := Normal tt;
     env_createOffer := Normal "v=0 offer";
     env_setLocalDescription := Normal tt;
     env_webrtc_fetch := Normal {| ok := true; body := OtherText "v=0 answer" |};
     env_setRemoteDescription := Normal tt;
     env_channel_state := open |}.

(** A configuration: the three values of [process.env]. *)
Definition rtc_url : string := "https://rtc.example/realtime".
Definition sessions_url : string := "https://api.example/sessions".
Definition api_key : string := "key".

(** [startSession] as the UI calls it: the closure of the latest render. *)
Definition start (env : StartEnv) (w : World) : World :=
  exec (startSession rtc_url sessions_url api_key (current_render w) env) w.

End Samples.

(** ** Vocabulary of the statements *)

(** The guard of [sendClientEvent], as seen from render [r]:
    [dataChannel && dataChannel.readyState === "open"]. *)
Definition channel_ready (r : Render) (w : World) : bool :=
  match render_dataChannel r with
  | Some dc => ReadyState_eqb (state_of dc w) open
  | None => false
  end.

(** The payloads handed to [send] on channel [dc] so far. *)
Definition sent_on (dc : handle) (w : World) : list Payload :=
  match channels w !! dc with
  | Some c => dc_sent c
  | None => []
  end.

Definition not_ready_entry : ConsoleEntry :=
  {| label := "Failed to send message - data channel not ready"; detail := None |}.

(** How field [k] of [after] relates to the one of [before] when the generated
    value is [fresh]: filled in when the field is absent, kept when it holds a
    truthy value, replaced when it holds a falsy one. *)
Definition stamped (k fresh : string) (before after : JsObject) : Prop :=
  (has_prop k before = false -> lookup_prop k after = JStr fresh) /\
  (truthy (lookup_prop k before) = true -> lookup_prop k after = lookup_prop k before) /\
  (truthy (lookup_prop k before) = false -> lookup_prop k after = JStr fresh).

(** Every step of the handshake succeeds: the provisioning response is a
    success from which the credential expression can be read, the offer is
    created and set, the signaling response is a success and its answer is
    accepted.  Microphone access may go either way. *)
Definition negotiates (env : StartEnv) : Prop :=
  exists resp sessionData key offer resp2,
    env_sessions_fetch env = Normal resp /\ ok resp = true /\
    parse_payload (body resp) = Normal sessionData /\
    client_secret_value sessionData = Normal key /\
    env_createOffer env = Normal offer /\
    env_setLocalDescription env = Normal tt /\
    env_webrtc_fetch env = Normal resp2 /\ ok resp2 = true /\
    env_setRemoteDescription env = Normal tt.

(** No session: nothing is held in the state or in the refs. *)
Definition idle (w : World) : Prop :=
  isSessionActive w = false /\ dataChannel w = None /\
  peerConnection w = None /\ audioElement w = None.

(** The console entry of the [catch] clause of [startSession]. *)
Definition session_error (e : JsError) : ConsoleEntry :=
  {| label := "Session error:"; detail := Some e |}.

(** *** Worlds and inputs used to instantiate the theorems *)

Module Runs.
Import Samples.

(** A session whose channel has opened: [startSession] went through and the
    [open] listener ran. *)
Definition active_world : World := exec handleOpen (start good_env initial_world).


Definition hello : JsObject := [("type", JStr "input_audio_buffer.clear")].

Definition amb1 : Ambient :=
  {| randomUUID := "77aa"; toLocaleTimeString := "10:15:02 AM" |}.

(** An inbound event without a timestamp. *)
Definition inbound_plain : Payload :=
  JsonText (JsonObject [("type", JsonString "response.done")]).

(** An inbound event whose timestamp is the number [0]. *)
Definition inbound_zero : Payload :=
  JsonText (JsonObject [("type", JsonString "response.done");
                        ("timestamp", JsonNumber (S754_zero false))]).

(** An outbound message whose [event_id] is the empty string. *)
Definition outbound_empty_id : JsObject :=
  [("type", JStr "response.create"); ("event_id", JStr EmptyString)].

(** A provisioning response with a success status and an empty JSON object as
    body: no [client_secret]. *)
Definition no_credential : StartEnv :=
  {| env_sessions_fetch := Normal {| ok := true; body := JsonText (JsonObject []) |};
     env_getUserMedia := env_getUserMedia good_env;
     env_createOffer := env_createOffer good_env;
     env_setLocalDescription := env_setLocalDescription good_env;
     env_webrtc_fetch := env_webrtc_fetch good_env;
     env_setRemoteDescription := env_setRemoteDescription good_env;
     env_channel_state := connecting |}.

(** The provisioning endpoint answers with a non-success status. *)
Definition provisioning_rejected : StartEnv :=
  {| env_sessions_fetch := Normal {| ok := false; body := OtherText "Unauthorized" |};
     env_getUserMedia := env_getUserMedia good_env;
     env_createOffer := env_createOffer good_env;
     env_setLocalDescription := env_setLocalDescription good_env;
     env_webrtc_fetch := env_webrtc_fetch good_env;
     env_setRemoteDescription := env_setRemoteDescription good_env;
     env_channel_state := connecting |}.

(** Provisioning succeeds, the signaling endpoint answers with a non-success
    status. *)
Definition signaling_rejected : StartEnv :=
  {| env_sessions_fetch := env_sessions_fetch good_env;
     env_getUserMedia := env_getUserMedia good_env;
     env_createOffer := env_createOffer good_env;
     env_setLocalDescription := env_setLocalDescription good_env;
     env_webrtc_fetch := Normal {| ok := false; body := OtherText "Bad Request" |};
     env_setRemoteDescription := env_setRemoteDescription good_env;
     env_channel_state := connecting |}.

End Runs.


(** ** The remote-track listener and the component as a transition system *)

Module Lifecycle.

(** The listener assigned to [pc.ontrack] in [startSession]:
    [if (e.streams && e.streams[0]) audioElement.current.srcObject = e.streams[0]].
    [streams] is [e.streams], empty when the event names no stream.  The ref is
    read when the event arrives; with an empty ref the assignment throws. *)
Definition ontrack (streams : list nat) : M unit :=
  match streams with
  | stream :: _ =>
      a ← audioElement_current;
      match a with
      | Some a => set_srcObject a (Some stream)
      | None => throw (TypeError "Cannot set properties of null")
      end
  | [] => mret tt
  end.

(** One call into the component: a function handed to the UI, called through
    the closure of some render, or a listener invoked by the browser. *)
Inductive Action : Type :=
| StartSession (r : Render) (env : StartEnv)
| StopSession (r : Render)
| SendClientEvent (r : Render) (amb : Ambient) (message : JsObject)
| SendTextMessage (r : Render) (amb1 amb2 : Ambient) (message : JsValue)
| Message (amb : Ambient) (data : Payload)
| Open
| Close
| Track (streams : list nat).

Section Configuration.

Variables WEBRTC_URL SESSIONS_URL API_KEY : string.

Definition perform (a : Action) : M unit :=
  match a with
  | StartSession r env => startSession WEBRTC_URL SESSIONS_URL API_KEY r env
  | StopSession r => stopSession r
  | SendClientEvent r amb message => sendClientEvent r amb message
  | SendTextMessage r amb1 amb2 message => sendTextMessage r amb1 amb2 message
  | Message amb data => handleMessage amb data
  | Open => handleOpen
  | Close => handleClose
  | Track streams => ontrack streams
  end.

(** The world after a sequence of calls; a call that throws leaves the world
    it had reached. *)
Definition run (acts : list Action) (w : World) : World :=
  fold_left (fun w a => exec (perform a) w) acts w.

End Configuration.

End Lifecycle.
Export Lifecycle.

(** ** Vocabulary of the further statements *)

(** The provisioning phase of [startSession] (lines 24 to 41) as a function of
    what the endpoint answers: the value of the credential expression, or the
    exception that ends the phase. *)
Definition provisioning (env : StartEnv) : Completion JsValue :=
  match env_sessions_fetch env with
  | Throw e => Throw e
  | Normal resp =>
      if ok resp then
        match parse_payload (body resp) with
        | Throw e => Throw e
        | Normal sessionData => client_secret_value sessionData
        end
      else Throw (Error "Failed to create session")
  end.

(** The console entry of the inner [catch] of [startSession]. *)
Definition microphone_error (e : JsError) : ConsoleEntry :=
  {| label := "Error accessing microphone:"; detail := Some e |}.

(** The element in [audioElement.current], if any, is a child of the
    document body: what [document.body.removeChild] needs. *)
Definition sink_attached (w : World) : Prop :=
  forall a, audioElement w = Some a ->
    exists e, audios w !! a = Some e /\ in_body e = true.

(** [old] is the tail of [new]: entries were only added in front. *)
Definition grown_in_front {A : Type} (old new : list A) : Prop :=
  exists front, new = front ++ old.

(** The keys of an object are pairwise distinct, as in every JavaScript
    object. *)
Definition distinct_keys (o : JsObject) : Prop := NoDup (map fst o).

(** A channel state from which the channel can no longer carry a message. *)
Definition settled (s : ReadyState) : Prop := s = closing \/ s = closed.

(** * Properties *)

(** ** Objects and their JSON text *)

Section ObjectLemmas.

Lemma lookup_assign_same (k : string) (v : JsValue) (o : JsObject) :
  lookup_prop k (assign_prop k v o) = v.
Proof.
  induction o as [|[k' v'] o IH]; simpl.
  - now rewrite String.eqb_refl.
  - destruct (String.eqb k k') eqn:E; simpl; rewrite E; auto.
Qed.

Lemma lookup_assign_other (k k' : string) (v : JsValue) (o : JsObject) :
  String.eqb k' k = false ->
  lookup_prop k' (assign_prop k v o) = lookup_prop k' o.
Proof.
  intros Hne. induction o as [|[k0 v0] o IH]; simpl.
  - now rewrite Hne.
  - destruct (String.eqb k k0) eqn:E; simpl.
    + apply String.eqb_eq in E. subst k0. now rewrite Hne.
    + now rewrite IH.
Qed.

Lemma lookup_absent (k : string) (o : JsObject) :
  has_prop k o = false -> lookup_prop k o = JUndefined.
Proof.
  unfold has_prop. induction o as [|[k' v'] o IH]; simpl; [easy|].
  destruct (String.eqb k k'); simpl; [discriminate | exact IH].
Qed.

(** The text of an object has, under [k], the text of the value read at [k]. *)
Lemma stringify_member (k : string) (o : JsObject) (j : Json) :
  JSON_stringify (lookup_prop k o) = Some j ->
  payload_member k (serialized (JObj o)) = Some j.
Proof.
  unfold serialized. simpl. induction o as [|[k' v'] o IH]; simpl; [discriminate|].
  destruct (String.eqb k k') eqn:E.
  - intros ->. simpl. now rewrite E.
  - intros H. destruct (JSON_stringify v'); simpl; [rewrite E|]; auto.
Qed.

(** A key the object does not read as anything has no member in its text. *)
Lemma stringify_no_member (k : string) (o : JsObject) :
  has_prop k o = false ->
  payload_member k (serialized (JObj o)) = None.
Proof.
  unfold serialized, has_prop. simpl. induction o as [|[k' v'] o IH]; simpl; [easy|].
  destruct (String.eqb k k') eqn:E; simpl; [discriminate|].
  intros H. destruct (JSON_stringify v'); simpl; [rewrite E|]; auto.
Qed.

End ObjectLemmas.

Section StampLemmas.

Variable amb : Ambient.
Variable message : JsObject.

Lemma stamp_event_id :
  lookup_prop "event_id" (stamp amb message)
  = js_or (lookup_prop "event_id" message) (JStr (randomUUID amb)).
Proof.
  unfold stamp. rewrite lookup_assign_other by reflexivity.
  apply lookup_assign_same.
Qed.

Lemma stamp_timestamp :
  lookup_prop "timestamp" (stamp amb message)
  = js_or (lookup_prop "timestamp" message) (JStr (toLocaleTimeString amb)).
Proof.
  unfold stamp. rewrite lookup_assign_same.
  now rewrite lookup_assign_other by reflexivity.
Qed.

Lemma stamp_other (k : string) :
  String.eqb k "event_id" = false -> String.eqb k "timestamp" = false ->
  lookup_prop k (stamp amb message) = lookup_prop k message.
Proof.
  intros H1 H2. unfold stamp. now rewrite !lookup_assign_other.
Qed.

End StampLemmas.

(** ** The send operation *)

#[local] Arguments stamp : simpl never.
#[local] Arguments serialized : simpl never.

Ltac run_M :=
  lazy beta iota zeta delta
    [mbind mret M_bind M_ret read update throw await try_catch exec completion fst snd
     dc_readyState dc_send dc_close setEvents setIsSessionActive setDataChannel
     console_error state_of sent_on channel_ready
     peerConnection_current set_peerConnection_current
     audioElement_current set_audioElement_current
     with_isSessionActive with_events with_dataChannel with_peerConnection
     with_audioElement with_connections with_channels with_audios with_tracks
     with_network with_console
     isSessionActive events dataChannel peerConnection audioElement connections
     channels audios tracks network console].

(** Expose the fields of a world, so that field updates compute. *)
Tactic Notation "run_M" "in" hyp(H) :=
  lazy beta iota zeta delta
    [mbind mret M_bind M_ret read update throw await try_catch exec completion fst snd
     dc_readyState dc_send dc_close setEvents setIsSessionActive setDataChannel
     console_error state_of sent_on channel_ready
     peerConnection_current set_peerConnection_current
     audioElement_current set_audioElement_current
     with_isSessionActive with_events with_dataChannel with_peerConnection
     with_audioElement with_connections with_channels with_audios with_tracks
     with_network with_console
     isSessionActive events dataChannel peerConnection audioElement connections
     channels audios tracks network console] in H.

Ltac open_world w :=
  destruct w as [act evs dch pcr aur conns chs auds trks net con].

Lemma sendClientEvent_not_ready (r : Render) (amb : Ambient) (message : JsObject) (w : World) :
  channel_ready r w = false ->
  sendClientEvent r amb message w
  = (Normal tt, with_console (console w ++ [not_ready_entry]) w).
Proof.
  unfold sendClientEvent, channel_ready. open_world w.
  destruct (render_dataChannel r) as [dc|]; run_M; [|reflexivity].
  now intros ->.
Qed.

Lemma sendClientEvent_ready (r : Render) (amb : Ambient) (message : JsObject) (w : World) :
  channel_ready r w = true ->
  exists dc,
    render_dataChannel r = Some dc /\
    sendClientEvent r amb message w
    = (Normal tt,
       with_events (JObj (stamp amb message) :: events w)
         (with_channels
            (alter (transmit (serialized (JObj (stamp amb message)))) dc (channels w)) w)).
Proof.
  unfold sendClientEvent, channel_ready. open_world w.
  destruct (render_dataChannel r) as [dc|]; run_M; [|discriminate].
  intros H. exists dc. split; [reflexivity|].
  rewrite H. run_M. now rewrite H.
Qed.

Lemma channel_ready_Some (r : Render) (w : World) :
  channel_ready r w = true ->
  exists dc c, render_dataChannel r = Some dc /\ channels w !! dc = Some c /\ readyState c = open.
Proof.
  unfold channel_ready, state_of. destruct (render_dataChannel r) as [dc|]; [|discriminate].
  destruct (channels w !! dc) as [c|] eqn:Hc; [|discriminate].
  intros H. exists dc, c. split; [reflexivity|]. split; [exact Hc|].
  now destruct (readyState c).
Qed.

(** C4. A message passed to [sendClientEvent] while the channel is not open is
    dropped: the call completes normally (nothing is thrown to the caller), and
    the world afterwards is the one before with one more console entry, the
    error "Failed to send message - data channel not ready". In particular the
    event log, every channel's sent payloads and the network are as before:
    nothing is appended, transmitted, queued or retried. *)
Theorem send_while_not_open_is_dropped
    (r : Render) (amb : Ambient) (message : JsObject) (w : World) :
  channel_ready r w = false ->
  completion (sendClientEvent r amb message) w = Normal tt /\
  exec (sendClientEvent r amb message) w
    = with_console (console w ++ [not_ready_entry]) w /\
  events (exec (sendClientEvent r amb message) w) = events w /\
  channels (exec (sendClientEvent r amb message) w) = channels w /\
  network (exec (sendClientEvent r amb message) w) = network w /\
  console (exec (sendClientEvent r amb message) w) = console w ++ [not_ready_entry] /\
  (forall dc, sent_on dc (exec (sendClientEvent r amb message) w) = sent_on dc w).
Proof.
  intros H. unfold completion, exec.
  rewrite (sendClientEvent_not_ready r amb message w H).
  open_world w. repeat split; reflexivity.
Qed.

Lemma send_while_not_open_is_dropped_witness :
  channel_ready (current_render initial_world) initial_world = false /\
  events (exec (sendClientEvent (current_render initial_world) Samples.amb0 Runs.hello)
            initial_world) = events initial_world.
Proof.
  split; [reflexivity|].
  apply (send_while_not_open_is_dropped
           (current_render initial_world) Samples.amb0 Runs.hello initial_world).
  reflexivity.
Defined.

(** C5. A message passed to [sendClientEvent] while the channel is open puts
    exactly one entry at the front of the event log, the stamped message, and
    hands exactly one payload to the channel, the text of that message: the
    channel's sent payloads grow by that one payload and no other channel
    changes. *)
Theorem send_while_open_logs_and_transmits_once
    (r : Render) (amb : Ambient) (message : JsObject) (w : World) :
  channel_ready r w = true ->
  exists dc,
    render_dataChannel r = Some dc /\
    completion (sendClientEvent r amb message) w = Normal tt /\
    events (exec (sendClientEvent r amb message) w)
      = JObj (stamp amb message) :: events w /\
    sent_on dc (exec (sendClientEvent r amb message) w)
      = sent_on dc w ++ [serialized (JObj (stamp amb message))] /\
    (forall dc', dc' <> dc ->
       sent_on dc' (exec (sendClientEvent r amb message) w) = sent_on dc' w).
Proof.
  intros H.
  destruct (sendClientEvent_ready r amb message w H) as (dc & Hr & Hrun).
  destruct (channel_ready_Some r w H) as (dc0 & c & Hr0 & Hc & _).
  assert (dc0 = dc) by congruence. subst dc0.
  exists dc. unfold completion, exec. rewrite Hrun.
  open_world w. run_M. run_M in Hc.
  split; [exact Hr|]. split; [reflexivity|]. split; [reflexivity|]. split.
  - now rewrite list_lookup_alter_eq, Hc.
  - intros dc' Hne. now rewrite list_lookup_alter_ne by congruence.
Qed.

Lemma send_while_open_logs_and_transmits_once_witness :
  channel_ready (current_render Runs.active_world) Runs.active_world = true /\
  exists dc,
    render_dataChannel (current_render Runs.active_world) = Some dc /\
    completion (sendClientEvent (current_render Runs.active_world) Samples.amb0 Runs.hello)
      Runs.active_world = Normal tt /\
    events (exec (sendClientEvent (current_render Runs.active_world) Samples.amb0 Runs.hello)
              Runs.active_world)
      = JObj (stamp Samples.amb0 Runs.hello) :: events Runs.active_world /\
    sent_on dc (exec (sendClientEvent (current_render Runs.active_world) Samples.amb0 Runs.hello)
                  Runs.active_world)
      = sent_on dc Runs.active_world ++ [serialized (JObj (stamp Samples.amb0 Runs.hello))] /\
    (forall dc', dc' <> dc ->
       sent_on dc' (exec (sendClientEvent (current_render Runs.active_world) Samples.amb0
                            Runs.hello) Runs.active_world)
       = sent_on dc' Runs.active_world).
Proof.
  split; [reflexivity|].
  apply (send_while_open_logs_and_transmits_once
           (current_render Runs.active_world) Samples.amb0 Runs.hello Runs.active_world).
  reflexivity.
Defined.

(** ** Stamping of outbound and inbound events *)

Lemma js_or_stamped (k fresh : string) (before after : JsObject) :
  lookup_prop k after = js_or (lookup_prop k before) (JStr fresh) ->
  stamped k fresh before after.
Proof.
  intros Hafter. unfold stamped. rewrite Hafter. unfold js_or. repeat split.
  - intros H. now rewrite (lookup_absent _ _ H).
  - now intros ->.
  - now intros ->.
Qed.

(** A stamped field always has a JSON text: it is a truthy value or a string. *)
Lemma js_or_has_text (v : JsValue) (fresh : string) :
  exists j, JSON_stringify (js_or v (JStr fresh)) = Some j.
Proof.
  unfold js_or. destruct (truthy v) eqn:T; [|now eexists].
  destruct v; try discriminate; now eexists.
Qed.

Lemma handleMessage_object (amb : Ambient) (data : Payload) (props : JsObject) (w : World) :
  parse_payload data = Normal (JObj props) ->
  handleMessage amb data w
  = (Normal tt,
     with_events
       (JObj (assign_prop "timestamp"
                (js_or (lookup_prop "timestamp" props) (JStr (toLocaleTimeString amb)))
                props) :: events w) w).
Proof.
  intros H. unfold handleMessage. rewrite H. now open_world w.
Qed.

(** What an accepted send leaves in the log and on the channel. *)
Lemma accepted_send_effect
    (r : Render) (amb : Ambient) (message : JsObject) (w : World) :
  channel_ready r w = true ->
  exists dc,
    render_dataChannel r = Some dc /\
    events (exec (sendClientEvent r amb message) w)
      = JObj (stamp amb message) :: events w /\
    sent_on dc (exec (sendClientEvent r amb message) w)
      = sent_on dc w ++ [serialized (JObj (stamp amb message))].
Proof.
  intros H.
  destruct (sendClientEvent_ready r amb message w H) as (dc & Hr & Hrun).
  destruct (channel_ready_Some r w H) as (dc0 & c & Hr0 & Hc & _).
  assert (dc0 = dc) by congruence. subst dc0.
  exists dc. unfold exec. rewrite Hrun.
  open_world w. run_M. run_M in Hc.
  split; [exact Hr|]. split; [reflexivity|].
  now rewrite list_lookup_alter_eq, Hc.
Qed.

(** Assigning one key neither adds nor removes another. *)
Lemma has_prop_assign_other (k k' : string) (v : JsValue) (o : JsObject) :
  String.eqb k' k = false ->
  has_prop k' (assign_prop k v o) = has_prop k' o.
Proof.
  intros Hne. unfold has_prop. induction o as [|[k0 v0] o IH]; cbn.
  - now rewrite Hne.
  - destruct (String.eqb k k0) eqn:E; cbn; [reflexivity|]. now rewrite IH.
Qed.

(** C3, as the code has it. While the channel is open, [sendClientEvent] logs
    and transmits the message with [event_id] and [timestamp] filled in when
    they are absent, and the transmitted text carries both fields as logged;
    either field, when already there, is kept when its value is truthy and
    replaced by the generated one when it is falsy ([null], [false], [0],
    [NaN], the empty string). An inbound event that parses to an object is
    logged with [timestamp] filled in when it is absent, kept when truthy and
    replaced when falsy; the listener touches no other field: every other
    field, [event_id] among them, is logged with the value it came with,
    whatever that value is, and [event_id] is not added when it is absent. *)
Theorem stamps_fill_absent_and_keep_truthy
    (r : Render) (amb : Ambient) (w : World)
    (message : JsObject) (data : Payload) (props : JsObject) :
  (channel_ready r w = true ->
   exists dc sent,
     render_dataChannel r = Some dc /\
     events (exec (sendClientEvent r amb message) w) = JObj sent :: events w /\
     sent_on dc (exec (sendClientEvent r amb message) w)
       = sent_on dc w ++ [serialized (JObj sent)] /\
     stamped "event_id" (randomUUID amb) message sent /\
     stamped "timestamp" (toLocaleTimeString amb) message sent /\
     (exists j, JSON_stringify (lookup_prop "event_id" sent) = Some j /\
                payload_member "event_id" (serialized (JObj sent)) = Some j) /\
     (exists j, JSON_stringify (lookup_prop "timestamp" sent) = Some j /\
                payload_member "timestamp" (serialized (JObj sent)) = Some j)) /\
  (parse_payload data = Normal (JObj props) ->
   exists received,
     completion (handleMessage amb data) w = Normal tt /\
     events (exec (handleMessage amb data) w) = JObj received :: events w /\
     stamped "timestamp" (toLocaleTimeString amb) props received /\
     (forall k, String.eqb k "timestamp" = false ->
        lookup_prop k received = lookup_prop k props) /\
     lookup_prop "event_id" received = lookup_prop "event_id" props /\
     has_prop "event_id" received = has_prop "event_id" props).
Proof.
  split.
  - intros Hready.
    destruct (accepted_send_effect r amb message w Hready)
      as (dc & Hr & Hev & Hsent).
    exists dc, (stamp amb message).
    split; [exact Hr|]. split; [exact Hev|]. split; [exact Hsent|].
    split; [apply js_or_stamped, stamp_event_id|].
    split; [apply js_or_stamped, stamp_timestamp|].
    split.
    + destruct (js_or_has_text (lookup_prop "event_id" message) (randomUUID amb)) as [j Hj].
      exists j. rewrite stamp_event_id. split; [exact Hj|].
      apply stringify_member. now rewrite stamp_event_id.
    + destruct (js_or_has_text (lookup_prop "timestamp" message) (toLocaleTimeString amb))
        as [j Hj].
      exists j. rewrite stamp_timestamp. split; [exact Hj|].
      apply stringify_member. now rewrite stamp_timestamp.
  - intros Hparse. eexists. unfold completion, exec.
    rewrite (handleMessage_object amb data props w Hparse).
    open_world w. run_M.
    split; [reflexivity|]. split; [reflexivity|].
    split; [apply js_or_stamped, lookup_assign_same|].
    split; [intros k Hk; now apply lookup_assign_other|].
    split; [now apply lookup_assign_other | now apply has_prop_assign_other].
Qed.

Lemma stamps_fill_absent_and_keep_truthy_witness :
  channel_ready (current_render Runs.active_world) Runs.active_world = true /\
  parse_payload Runs.inbound_plain = Normal (JObj [("type", JStr "response.done")]) /\
  (exists dc sent,
     render_dataChannel (current_render Runs.active_world) = Some dc /\
     events (exec (sendClientEvent (current_render Runs.active_world) Runs.amb1 Runs.hello)
               Runs.active_world) = JObj sent :: events Runs.active_world /\
     stamped "event_id" (randomUUID Runs.amb1) Runs.hello sent) /\
  (exists received,
     completion (handleMessage Runs.amb1 Runs.inbound_plain) Runs.active_world = Normal tt /\
     events (exec (handleMessage Runs.amb1 Runs.inbound_plain) Runs.active_world)
       = JObj received :: events Runs.active_world /\
     stamped "timestamp" (toLocaleTimeString Runs.amb1)
       [("type", JStr "response.done")] received /\
     has_prop "event_id" received = false).
Proof.
  split; [reflexivity|]. split; [reflexivity|].
  destruct (stamps_fill_absent_and_keep_truthy
              (current_render Runs.active_world) Runs.amb1 Runs.active_world
              Runs.hello Runs.inbound_plain [("type", JStr "response.done")])
    as (Hout & Hin).
  split.
  - destruct (Hout eq_refl) as (dc & sent & Hr & Hev & _ & Hid & _).
    exists dc, sent. split; [exact Hr|]. split; [exact Hev | exact Hid].
  - destruct (Hin eq_refl) as (received & Hc & Hev & Hts & _ & _ & Hhas).
    exists received. split; [exact Hc|]. split; [exact Hev|]. split; [exact Hts | exact Hhas].
Defined.

(** C3 as stated fails on falsy values. An inbound event that carries the
    timestamp [0] is logged with the arrival time instead, and an outbound
    message that carries the empty string as [event_id] is logged and sent
    with a generated identifier. *)
Lemma falsy_fields_are_overwritten :
  (parse_payload Runs.inbound_zero
     = Normal (JObj [("type", JStr "response.done"); ("timestamp", JNum (S754_zero false))]) /\
   has_prop "timestamp"
     [("type", JStr "response.done"); ("timestamp", JNum (S754_zero false))] = true /\
   events (exec (handleMessage Runs.amb1 Runs.inbound_zero) Runs.active_world)
     = [JObj [("type", JStr "response.done"); ("timestamp", JStr "10:15:02 AM")]] /\
   lookup_prop "timestamp"
     [("type", JStr "response.done"); ("timestamp", JStr "10:15:02 AM")]
   <> lookup_prop "timestamp"
        [("type", JStr "response.done"); ("timestamp", JNum (S754_zero false))]) /\
  (channel_ready (current_render Runs.active_world) Runs.active_world = true /\
   has_prop "event_id" Runs.outbound_empty_id = true /\
   events (exec (sendClientEvent (current_render Runs.active_world) Runs.amb1
                   Runs.outbound_empty_id) Runs.active_world)
     = [JObj [("type", JStr "response.create"); ("event_id", JStr "77aa");
              ("timestamp", JStr "10:15:02 AM")]] /\
   lookup_prop "event_id"
     [("type", JStr "response.create"); ("event_id", JStr "77aa");
      ("timestamp", JStr "10:15:02 AM")]
   <> lookup_prop "event_id" Runs.outbound_empty_id /\
   payload_member "event_id"
     (serialized (JObj (stamp Runs.amb1 Runs.outbound_empty_id)))
     = Some (JsonString "77aa")).
Proof. vm_compute. repeat split; (reflexivity || discriminate). Qed.

(** ** Text messages *)

(** C8. [sendTextMessage(m)] is two calls of [sendClientEvent] in sequence:
    first with the "conversation.item.create" event whose single content part
    has type "input_text" and text [m], then with the "response.create" event.
    On an open channel the two payloads go out in that order, the first
    carrying the literal [m], and the log receives both entries; on a channel
    that is not open both sends are dropped, each with its console error. *)
Theorem sendTextMessage_is_two_sends
    (r : Render) (amb1 amb2 : Ambient) (m : string) (w : World) :
  sendTextMessage r amb1 amb2 (JStr m) w
    = (sendClientEvent r amb1 (conversation_item_create (JStr m)) ;;
       sendClientEvent r amb2 response_create) w /\
  conversation_item_create (JStr m)
    = [("type", JStr "conversation.item.create");
       ("item", JObj [("type", JStr "message"); ("role", JStr "user");
                      ("content", JArr [JObj [("type", JStr "input_text");
                                              ("text", JStr m)]] [])])] /\
  (channel_ready r w = true ->
   exists dc,
     render_dataChannel r = Some dc /\
     completion (sendTextMessage r amb1 amb2 (JStr m)) w = Normal tt /\
     sent_on dc (exec (sendTextMessage r amb1 amb2 (JStr m)) w)
       = sent_on dc w ++
         [JsonText (JsonObject
            [("type", JsonString "conversation.item.create");
             ("item", JsonObject
                [("type", JsonString "message"); ("role", JsonString "user");
                 ("content", JsonArray [JsonObject [("type", JsonString "input_text");
                                                    ("text", JsonString m)]])]);
             ("event_id", JsonString (randomUUID amb1));
             ("timestamp", JsonString (toLocaleTimeString amb1))]);
          JsonText (JsonObject
            [("type", JsonString "response.create");
             ("event_id", JsonString (randomUUID amb2));
             ("timestamp", JsonString (toLocaleTimeString amb2))])] /\
     events (exec (sendTextMessage r amb1 amb2 (JStr m)) w)
       = JObj (stamp amb2 response_create)
           :: JObj (stamp amb1 (conversation_item_create (JStr m))) :: events w) /\
  (channel_ready r w = false ->
   exec (sendTextMessage r amb1 amb2 (JStr m)) w
     = with_console (console w ++ [not_ready_entry; not_ready_entry]) w).
Proof.
  split; [reflexivity|]. split; [reflexivity|]. split.
  - intros H.
    destruct (sendClientEvent_ready r amb1 (conversation_item_create (JStr m)) w H)
      as (dc & Hr & Hrun1).
    destruct (channel_ready_Some r w H) as (dc0 & c & Hr0 & Hc & Hopen).
    assert (dc0 = dc) by congruence. subst dc0.
    set (w1 := with_events (JObj (stamp amb1 (conversation_item_create (JStr m))) :: events w)
                 (with_channels
                    (alter (transmit (serialized
                              (JObj (stamp amb1 (conversation_item_create (JStr m))))))
                           dc (channels w)) w)) in *.
    assert (H1 : channel_ready r w1 = true).
    { unfold channel_ready. rewrite Hr. subst w1. open_world w. run_M. run_M in Hc.
      rewrite list_lookup_alter_eq, Hc. cbn. now rewrite Hopen. }
    destruct (sendClientEvent_ready r amb2 response_create w1 H1) as (dc1 & Hr1 & Hrun2).
    assert (dc1 = dc) by congruence. subst dc1.
    exists dc. split; [exact Hr|].
    unfold completion, exec, sendTextMessage, mbind, M_bind.
    rewrite Hrun1, Hrun2. subst w1. clear Hrun1 Hrun2 H1 H.
    open_world w. run_M. run_M in Hc.
    split; [reflexivity|]. split; [|reflexivity].
    rewrite !list_lookup_alter_eq, Hc. cbn. now rewrite <- app_assoc.
  - intros H. unfold exec, sendTextMessage, mbind, M_bind.
    rewrite (sendClientEvent_not_ready r amb1 _ w H).
    rewrite sendClientEvent_not_ready.
    + open_world w. run_M. now rewrite <- app_assoc.
    + open_world w. exact H.
Qed.

Lemma sendTextMessage_is_two_sends_witness :
  channel_ready (current_render Runs.active_world) Runs.active_world = true /\
  events (exec (sendTextMessage (current_render Runs.active_world) Samples.amb0 Runs.amb1
                  (JStr "hello")) Runs.active_world)
  = [JObj [("type", JStr "response.create"); ("event_id", JStr "77aa");
           ("timestamp", JStr "10:15:02 AM")];
     JObj [("type", JStr "conversation.item.create");
           ("item", JObj [("type", JStr "message"); ("role", JStr "user");
                          ("content", JArr [JObj [("type", JStr "input_text");
                                                  ("text", JStr "hello")]] [])]);
           ("event_id", JStr "3f2c"); ("timestamp", JStr "10:15:00 AM")]].
Proof.
  split; [reflexivity|].
  destruct (sendTextMessage_is_two_sends
              (current_render Runs.active_world) Samples.amb0 Runs.amb1 "hello"
              Runs.active_world) as (_ & _ & Hopen & _).
  destruct (Hopen eq_refl) as (dc & _ & _ & _ & Hev).
  exact Hev.
Defined.

(** ** Teardown *)

Lemma with_tracks_same (w : World) : with_tracks (tracks w) w = w.
Proof. now destruct w. Qed.

Lemma forEach_stop_sender_track (senders : list (option handle)) (w : World) :
  exists l, forEach stop_sender_track senders w = (Normal tt, with_tracks l w).
Proof.
  revert w. induction senders as [|[t|] senders IH]; intros w.
  - exists (tracks w). cbn. now rewrite with_tracks_same.
  - cbn. unfold mbind, M_bind, track_stop, update.
    destruct (IH (with_tracks (alter (fun _ => {| track_ended := true |}) t (tracks w)) w))
      as [l Hl].
    exists l. rewrite Hl. now destruct w.
  - cbn. unfold mbind, M_bind, mret, M_ret.
    destruct (IH w) as [l Hl]. exists l. now rewrite Hl.
Qed.

Lemma sent_alter (f : RTCDataChannel -> RTCDataChannel) (i : nat) (l : list RTCDataChannel) :
  (forall c, dc_sent (f c) = dc_sent c) ->
  map dc_sent (alter f i l) = map dc_sent l.
Proof.
  intros Hf. revert i. induction l as [|c l IH]; intros [|i]; cbn; [easy|easy| |].
  - now rewrite Hf.
  - f_equal. apply IH.
Qed.

Lemma sent_start_closing (c : RTCDataChannel) : dc_sent (start_closing c) = dc_sent c.
Proof. unfold start_closing. now destruct (readyState c). Qed.

Lemma sent_close_channels (dcs : list handle) (l : list RTCDataChannel) :
  map dc_sent (close_channels dcs l) = map dc_sent l.
Proof.
  induction dcs as [|dc dcs IH]; cbn; [easy|].
  now rewrite sent_alter.
Qed.

Lemma length_close_channels (dcs : list handle) (l : list RTCDataChannel) :
  length (close_channels dcs l) = length l.
Proof.
  induction dcs as [|dc dcs IH]; cbn; [easy|]. now rewrite length_alter.
Qed.

(** What [stopSession] leaves behind, whatever render it belongs to. *)
Lemma stopSession_effect (r : Render) (w : World) :
  exists conns chs auds trks,
    stopSession r w
    = (Normal tt,
       {| isSessionActive := false; events := events w;
          dataChannel := match render_dataChannel r with
                         | Some _ => None
                         | None => dataChannel w
                         end;
          peerConnection := None; audioElement := None;
          connections := conns; channels := chs; audios := auds; tracks := trks;
          network := network w; console := console w |}) /\
    length conns = length (connections w) /\
    length chs = length (channels w) /\
    map dc_sent chs = map dc_sent (channels w).
Proof.
  destruct w as [act evs dch pcr aur conns chs auds trks net con].
  destruct r as [[dc|]]; destruct pcr as [pc|]; destruct aur as [a|];
    unfold stopSession, mbind, M_bind; cbn;
    try match goal with
      | |- context [forEach ?f ?s ?w0] =>
          destruct (forEach_stop_sender_track s w0) as [l Hl];
          change (forEach f s w0) with (forEach stop_sender_track s w0);
          rewrite Hl
      end; cbn;
    do 4 eexists; (split; [reflexivity|]); cbn;
    repeat split;
    repeat first [ rewrite length_alter | rewrite length_close_channels
                 | rewrite sent_close_channels
                 | rewrite sent_alter by (auto using sent_start_closing) ];
    reflexivity.
Qed.

(** The teardown as the UI calls it. After [stopSession] of the latest render
    completes, the connection ref, the channel state and the playback-sink ref
    are all null and [isSessionActive] is false. *)
Lemma stopSession_of_the_latest_render_nulls_all_handles (r : Render) (w : World) :
  r = current_render w ->
  completion (stopSession r) w = Normal tt /\
  peerConnection (exec (stopSession r) w) = None /\
  dataChannel (exec (stopSession r) w) = None /\
  audioElement (exec (stopSession r) w) = None /\
  isSessionActive (exec (stopSession r) w) = false.
Proof.
  intros ->.
  destruct (stopSession_effect (current_render w) w) as (cs & ds & xs & ts & Hrun & _).
  unfold completion, exec. rewrite Hrun. open_world w. run_M.
  repeat split; try reflexivity. now destruct dch.
Qed.

Lemma stopSession_of_the_latest_render_example :
  current_render Runs.active_world = current_render Runs.active_world /\
  dataChannel Runs.active_world = Some 0 /\
  peerConnection (exec (stopSession (current_render Runs.active_world)) Runs.active_world)
    = None /\
  dataChannel (exec (stopSession (current_render Runs.active_world)) Runs.active_world)
    = None /\
  audioElement (exec (stopSession (current_render Runs.active_world)) Runs.active_world)
    = None /\
  isSessionActive (exec (stopSession (current_render Runs.active_world)) Runs.active_world)
    = false.
Proof.
  split; [reflexivity|]. split; [reflexivity|].
  destruct (stopSession_of_the_latest_render_nulls_all_handles
              (current_render Runs.active_world) Runs.active_world eq_refl)
    as (_ & Hpc & Hdc & Ha & Hact).
  split; [exact Hpc|]. split; [exact Hdc|]. split; [exact Ha|]. exact Hact.
Defined.


(** ** Starting a session *)

Ltac run_start :=
  lazy beta iota zeta delta
    [App.startSession_try App.startSession
     fetch response_json response_text new_RTCPeerConnection createElement_audio
     set_autoplay appendChild set_ontrack alter_connection getUserMedia_audioTrack
     new_track pc_addTrack pc_createDataChannel pc_createOffer pc_setLocalDescription
     pc_setRemoteDescription browser_sets_readyState
     ok body
     env_sessions_fetch env_getUserMedia env_createOffer env_setLocalDescription
     env_webrtc_fetch env_setRemoteDescription env_channel_state
     negb readyState set_readyState ReadyState_eqb
     mbind mret M_bind M_ret read update throw await try_catch exec completion fst snd
     dc_readyState dc_send dc_close setEvents setIsSessionActive setDataChannel
     console_error state_of sent_on channel_ready
     peerConnection_current set_peerConnection_current
     audioElement_current set_audioElement_current
     with_isSessionActive with_events with_dataChannel with_peerConnection
     with_audioElement with_connections with_channels with_audios with_tracks
     with_network with_console
     isSessionActive events dataChannel peerConnection audioElement connections
     channels audios tracks network console].

Section StartLemmas.

Variables WEBRTC_URL SESSIONS_URL API_KEY : string.

Local Abbreviation startSession_try := (startSession_try WEBRTC_URL SESSIONS_URL API_KEY).
Local Abbreviation startSession := (startSession WEBRTC_URL SESSIONS_URL API_KEY).
Local Abbreviation sessions_request := (sessions_request SESSIONS_URL API_KEY).
Local Abbreviation webrtc_request := (webrtc_request WEBRTC_URL).

Lemma alter_snoc {A : Type} (f : A -> A) (l : list A) (x : A) :
  alter f (length l) (l ++ [x]) = l ++ [f x].
Proof. induction l as [|y l IH]; cbn; [easy|]. f_equal. exact IH. Qed.

Lemma lookup_snoc {A : Type} (l : list A) (x : A) : (l ++ [x]) !! length l = Some x.
Proof. now apply list_lookup_middle. Qed.

Lemma startSession_try_rejected (env : StartEnv) (w : World) (resp : Response) :
  env_sessions_fetch env = Normal resp -> ok resp = false ->
  startSession_try env w
  = (Throw (Error "Failed to create session"),
     with_network (network w ++ [sessions_request]) w).
Proof.
  intros Hf Hok. destruct env as [sf um co sl wf sr cs]. cbn in Hf. subst sf.
  destruct resp as [ok1 body1]. cbn in Hok. subst ok1.
  open_world w. run_start. reflexivity.
Qed.

Ltac snoc_lookup :=
  match goal with
  | |- context [ (?l ++ [?x]) !! (length ?l) ] => rewrite (lookup_snoc l x)
  end.

Ltac frame_done :=
  split; [reflexivity|];
  split; [reflexivity|];
  eexists; split; [rewrite <- ?app_assoc; reflexivity | eauto].

Lemma startSession_try_frame (env : StartEnv) (w : World) :
  events (exec (startSession_try env) w) = events w /\
  isSessionActive (exec (startSession_try env) w) = isSessionActive w /\
  exists rest,
    network (exec (startSession_try env) w) = network w ++ sessions_request :: rest /\
    (rest = [] \/ exists key offer, rest = [webrtc_request key offer]).
Proof.
  destruct env as [sf um co sl wf sr cs]. open_world w.
  destruct sf as [[ok1 body1]|e1]; [destruct ok1|]; run_start; try frame_done.
  destruct (parse_payload body1) as [sessionData|e2]; try frame_done.
  destruct (client_secret_value sessionData) as [key|e3]; try frame_done.
  destruct um, co, sl; try frame_done.
  all: destruct wf as [[[|] body2]|]; try frame_done.
  all: destruct sr; try frame_done.
  all: rewrite !alter_snoc; snoc_lookup; run_start.
  all: destruct cs; run_start; try frame_done.
  all: try (rewrite ?alter_snoc; snoc_lookup; run_start); frame_done.
Qed.

Ltac constructs_done :=
  split; [rewrite ?length_alter, length_app, Nat.add_comm; reflexivity |];
  split; reflexivity.

(** Once the credential expression has a value, the connection is constructed and
    stored in the ref and the new channel is stored in the state, whatever
    happens later in the block. *)
Lemma startSession_try_constructs
    (env : StartEnv) (w : World) (resp : Response) (sessionData key : JsValue) :
  env_sessions_fetch env = Normal resp -> ok resp = true ->
  parse_payload (body resp) = Normal sessionData ->
  client_secret_value sessionData = Normal key ->
  length (connections (exec (startSession_try env) w)) = S (length (connections w)) /\
  peerConnection (exec (startSession_try env) w) = Some (length (connections w)) /\
  dataChannel (exec (startSession_try env) w) = Some (length (channels w)).
Proof.
  intros Hf Hok Hparse Hkey.
  destruct env as [sf um co sl wf sr cs]. cbn in Hf. subst sf.
  destruct resp as [ok1 body1]. cbn in Hok, Hparse. subst ok1.
  open_world w. run_start. rewrite Hparse. run_start. rewrite Hkey. run_start.
  destruct um, co, sl; try constructs_done.
  all: destruct wf as [[[|] body2]|]; try constructs_done.
  all: destruct sr; try constructs_done.
  all: rewrite !alter_snoc; snoc_lookup; run_start.
  all: destruct cs; run_start; try constructs_done.
  all: try (rewrite ?alter_snoc; snoc_lookup; run_start); constructs_done.
Qed.

(** Once the offer is set locally, the signaling request goes out. *)
Lemma startSession_try_signals
    (env : StartEnv) (w : World) (resp : Response) (sessionData key : JsValue)
    (offer : string) :
  env_sessions_fetch env = Normal resp -> ok resp = true ->
  parse_payload (body resp) = Normal sessionData ->
  client_secret_value sessionData = Normal key ->
  env_createOffer env = Normal offer ->
  env_setLocalDescription env = Normal tt ->
  network (exec (startSession_try env) w)
  = network w ++ [sessions_request; webrtc_request key offer].
Proof.
  intros Hf Hok Hparse Hkey Hco Hsl.
  destruct env as [sf um co sl wf sr cs]. cbn in Hf, Hco, Hsl. subst sf co sl.
  destruct resp as [ok1 body1]. cbn in Hok, Hparse. subst ok1.
  open_world w. run_start. rewrite Hparse. run_start. rewrite Hkey. run_start.
  destruct um; run_start.
  all: destruct wf as [[[|] body2]|]; try (now rewrite <- app_assoc).
  all: destruct sr; try (now rewrite <- app_assoc).
  all: rewrite !alter_snoc; snoc_lookup; run_start.
  all: destruct cs; run_start; try (now rewrite <- app_assoc).
  all: try (rewrite ?alter_snoc; snoc_lookup; run_start); now rewrite <- app_assoc.
Qed.

(** A run in which every step succeeds and the channel is open when the
    block resumes: the new channel has been handed exactly the text of
    [initEvent]. *)
Lemma startSession_try_configures (env : StartEnv) (w : World) :
  negotiates env -> env_channel_state env = open ->
  completion (startSession_try env) w = Normal tt /\
  dataChannel (exec (startSession_try env) w) = Some (length (channels w)) /\
  sent_on (length (channels w)) (exec (startSession_try env) w)
    = [serialized (JObj initEvent)].
Proof.
  intros (resp & sessionData & key & offer & resp2 &
          Hf & Hok & Hparse & Hkey & Hco & Hsl & Hwf & Hok2 & Hsr) Hcs.
  destruct env as [sf um co sl wf sr cs]. cbn in Hf, Hco, Hsl, Hwf, Hsr, Hcs.
  subst sf co sl wf sr cs.
  destruct resp as [ok1 body1]. destruct resp2 as [ok2 body2].
  cbn in Hok, Hparse, Hok2. subst ok1 ok2.
  open_world w. run_start. rewrite Hparse. run_start. rewrite Hkey. run_start.
  destruct um; run_start.
  all: rewrite !alter_snoc; snoc_lookup; run_start.
  all: snoc_lookup; run_start.
  all: rewrite !alter_snoc; snoc_lookup.
  all: repeat split; reflexivity.
Qed.


(** ** [startSession] with its [catch] clause *)

Lemma startSession_unfold (r : Render) (env : StartEnv) (w : World) :
  startSession r env w
  = match startSession_try env w with
    | (Normal a, w') => (Normal a, w')
    | (Throw e, w') =>
        stopSession r (with_console (console w' ++ [session_error e]) w')
    end.
Proof.
  unfold App.startSession, try_catch.
  destruct (startSession_try env w) as [[a|e] w']; reflexivity.
Qed.

(** What a run of [startSession] leaves, in terms of the run of its [try]
    block: the same world when the block completes, the world torn down by the
    [stopSession] of render [r] when it throws. *)
Lemma startSession_effect (r : Render) (env : StartEnv) (w : World) :
  completion (startSession r env) w = Normal tt /\
  events (exec (startSession r env) w) = events (exec (startSession_try env) w) /\
  network (exec (startSession r env) w) = network (exec (startSession_try env) w) /\
  length (connections (exec (startSession r env) w))
    = length (connections (exec (startSession_try env) w)) /\
  (forall e, completion (startSession_try env) w = Throw e ->
     isSessionActive (exec (startSession r env) w) = false /\
     peerConnection (exec (startSession r env) w) = None /\
     audioElement (exec (startSession r env) w) = None /\
     dataChannel (exec (startSession r env) w)
       = match render_dataChannel r with
         | Some _ => None
         | None => dataChannel (exec (startSession_try env) w)
         end /\
     console (exec (startSession r env) w)
       = console (exec (startSession_try env) w) ++ [session_error e]).
Proof.
  unfold completion, exec. rewrite startSession_unfold.
  destruct (startSession_try env w) as [[[]|e] w'].
  - cbn. do 4 (split; [reflexivity|]). intros e0 He0. discriminate He0.
  - destruct (stopSession_effect r (with_console (console w' ++ [session_error e]) w'))
      as (cs & ds & xs & ts & Hrun & Hlen & _).
    rewrite Hrun. clear Hrun. destruct w'. run_M. run_M in Hlen.
    split; [reflexivity|]. split; [reflexivity|]. split; [reflexivity|].
    split; [exact Hlen|].
    intros e0 He0. injection He0 as ->. repeat split; reflexivity.
Qed.

Lemma client_secret_value_object (props : JsObject) :
  exists key,
    client_secret_value (JObj props) = Normal key /\
    (has_prop "client_secret" props = false -> key = JUndefined).
Proof.
  unfold client_secret_value. cbn.
  destruct (lookup_prop "client_secret" props) eqn:E; cbn;
    eexists; (split; [reflexivity|]); intros H;
    rewrite (lookup_absent _ _ H) in E; try discriminate E; reflexivity.
Qed.

(** C1, as the code has it. A provisioning response with a non-success
    status makes [startSession] abort with the error "Failed to create
    session": it is logged, no connection is constructed and no signaling
    request goes out. A response with a success status whose body is a JSON
    object is accepted whether or not it has [client_secret.value]: the
    credential expression then has a value, [undefined] when [client_secret] is
    missing, and the connection is constructed. *)
Theorem provisioning_status_gates_the_connection
    (r : Render) (env : StartEnv) (w : World) (resp : Response) :
  env_sessions_fetch env = Normal resp ->
  (ok resp = false ->
     console (exec (startSession r env) w)
       = console w ++ [session_error (Error "Failed to create session")] /\
     length (connections (exec (startSession r env) w)) = length (connections w) /\
     network (exec (startSession r env) w) = network w ++ [sessions_request]) /\
  (ok resp = true ->
     forall props, parse_payload (body resp) = Normal (JObj props) ->
       exists key,
         client_secret_value (JObj props) = Normal key /\
         (has_prop "client_secret" props = false -> key = JUndefined) /\
         length (connections (exec (startSession r env) w)) = S (length (connections w))).
Proof.
  intros Hf.
  destruct (startSession_effect r env w) as (_ & _ & Hnet & Hlen & Hthrow).
  split.
  - intros Hok.
    pose proof (startSession_try_rejected env w resp Hf Hok) as Htry.
    destruct (Hthrow (Error "Failed to create session")) as (_ & _ & _ & _ & Hcon).
    { unfold completion. now rewrite Htry. }
    rewrite Hcon, Hlen, Hnet. unfold exec. rewrite Htry.
    open_world w. repeat split; reflexivity.
  - intros Hok props Hparse.
    destruct (client_secret_value_object props) as (key & Hkey & Habsent).
    exists key. split; [exact Hkey|]. split; [exact Habsent|].
    rewrite Hlen.
    apply (startSession_try_constructs env w resp (JObj props) key Hf Hok Hparse Hkey).
Qed.


(** C9. The "session.update" message of [startSession] does not go through
    [sendClientEvent]: no run of [startSession] changes the event log, and in a
    run that reaches the configuration step with the channel open the new
    channel is handed exactly the text of [initEvent], which has a [type] but
    neither [event_id] nor [timestamp]. The same object passed to
    [sendClientEvent] on an open channel is logged, and goes out with both
    fields. *)
Theorem initial_configuration_bypasses_send
    (r : Render) (env : StartEnv) (w : World) :
  events (exec (startSession r env) w) = events w /\
  (negotiates env -> env_channel_state env = open ->
   sent_on (length (channels w)) (exec (startSession r env) w)
     = [serialized (JObj initEvent)]) /\
  payload_member "type" (serialized (JObj initEvent)) = Some (JsonString "session.update") /\
  payload_member "event_id" (serialized (JObj initEvent)) = None /\
  payload_member "timestamp" (serialized (JObj initEvent)) = None /\
  (forall r' amb w0, channel_ready r' w0 = true ->
     events (exec (sendClientEvent r' amb initEvent) w0)
       = JObj (stamp amb initEvent) :: events w0 /\
     payload_member "event_id" (serialized (JObj (stamp amb initEvent)))
       = Some (JsonString (randomUUID amb)) /\
     payload_member "timestamp" (serialized (JObj (stamp amb initEvent)))
       = Some (JsonString (toLocaleTimeString amb))).
Proof.
  destruct (startSession_effect r env w) as (_ & Hev & _).
  destruct (startSession_try_frame env w) as (Hev' & _).
  split; [now rewrite Hev|].
  split.
  { intros Hneg Hopen.
    destruct (startSession_try_configures env w Hneg Hopen)
      as (Hc & _ & Hsent).
    unfold exec in *. unfold completion in Hc. rewrite startSession_unfold.
    destruct (startSession_try env w) as [[[]|e] w']; [exact Hsent | discriminate Hc]. }
  split; [reflexivity|]. split; [reflexivity|]. split; [reflexivity|].
  intros r' amb w0 Hready.
  destruct (accepted_send_effect r' amb initEvent w0 Hready) as (dc & _ & Hlog & _).
  split; [exact Hlog|]. split; reflexivity.
Qed.

(** C10. Every run of [startSession] issues the provisioning request first,
    whose body names the model [DEPLOYMENT], followed by at most one signaling
    request, whose URL ends in the query [?model=] with the same [DEPLOYMENT];
    once the offer is set the signaling request does go out. [DEPLOYMENT] is
    the string "process.env.DEPLOYMENT" itself. *)
Theorem model_identifier_is_the_quoted_literal
    (r : Render) (env : StartEnv) (w : World) :
  DEPLOYMENT = "process.env.DEPLOYMENT" /\
  (exists rest,
     network (exec (startSession r env) w) = network w ++ sessions_request :: rest /\
     (rest = [] \/ exists key offer, rest = [webrtc_request key offer])) /\
  payload_member "model" (req_body sessions_request)
    = Some (JsonString "process.env.DEPLOYMENT") /\
  (forall key offer,
     req_url (webrtc_request key offer)
     = (WEBRTC_URL ++ "?model=" ++ "process.env.DEPLOYMENT")%string) /\
  (forall resp sessionData key offer,
     env_sessions_fetch env = Normal resp -> ok resp = true ->
     parse_payload (body resp) = Normal sessionData ->
     client_secret_value sessionData = Normal key ->
     env_createOffer env = Normal offer ->
     env_setLocalDescription env = Normal tt ->
     network (exec (startSession r env) w)
     = network w ++ [sessions_request; webrtc_request key offer]).
Proof.
  destruct (startSession_effect r env w) as (_ & _ & Hnet & _).
  destruct (startSession_try_frame env w) as (_ & _ & Hreq).
  split; [reflexivity|]. split; [now rewrite Hnet|].
  split; [reflexivity|]. split; [reflexivity|].
  intros resp sessionData key offer Hf Hok Hparse Hkey Hco Hsl. rewrite Hnet.
  now apply (startSession_try_signals env w resp sessionData key offer).
Qed.

(** The defect behind C2, for every world: when the block fails after the
    credential was read, the [stopSession] of a render that had no channel
    leaves the channel created by this run in the state. *)
Lemma failed_start_retains_the_new_channel
    (r : Render) (env : StartEnv) (w : World) (resp : Response)
    (sessionData key : JsValue) (e : JsError) :
  render_dataChannel r = None ->
  env_sessions_fetch env = Normal resp -> ok resp = true ->
  parse_payload (body resp) = Normal sessionData ->
  client_secret_value sessionData = Normal key ->
  completion (startSession_try env) w = Throw e ->
  dataChannel (exec (startSession r env) w) = Some (length (channels w)) /\
  peerConnection (exec (startSession r env) w) = None /\
  audioElement (exec (startSession r env) w) = None /\
  isSessionActive (exec (startSession r env) w) = false.
Proof.
  intros Hr Hf Hok Hparse Hkey Hthrow.
  destruct (startSession_effect r env w) as (_ & _ & _ & _ & Heff).
  destruct (Heff e Hthrow) as (Hact & Hpc & Hau & Hdc & _).
  rewrite Hr in Hdc.
  destruct (startSession_try_constructs env w resp sessionData key Hf Hok Hparse Hkey) as (_ & _ & Hnew).
  rewrite Hdc, Hnew. repeat split; assumption.
Qed.

End StartLemmas.

(** ** Runs of [startSession] *)

Lemma provisioning_status_gates_the_connection_witness :
  env_sessions_fetch Runs.provisioning_rejected
    = Normal {| ok := false; body := OtherText "Unauthorized" |} /\
  console (Samples.start Runs.provisioning_rejected initial_world)
    = [session_error (Error "Failed to create session")] /\
  length (connections (Samples.start Runs.provisioning_rejected initial_world)) = 0 /\
  network (Samples.start Runs.provisioning_rejected initial_world)
    = [sessions_request Samples.sessions_url Samples.api_key].
Proof.
  split; [reflexivity|].
  destruct (provisioning_status_gates_the_connection
              Samples.rtc_url Samples.sessions_url Samples.api_key
              (current_render initial_world) Runs.provisioning_rejected initial_world
              {| ok := false; body := OtherText "Unauthorized" |} eq_refl)
    as (Hrejected & _).
  exact (Hrejected eq_refl).
Defined.

(** C1 as stated fails on a success response without the credential field.
    With the body [{}] the credential expression is [undefined], nothing is
    thrown or logged, the connection is constructed and kept, and the
    signaling request goes out with [`Bearer ${undefined}`]. *)
Lemma missing_credential_is_not_rejected :
  env_sessions_fetch Runs.no_credential
    = Normal {| ok := true; body := JsonText (JsonObject []) |} /\
  payload_member "client_secret" (JsonText (JsonObject [])) = None /\
  completion (startSession Samples.rtc_url Samples.sessions_url Samples.api_key
                (current_render initial_world) Runs.no_credential) initial_world
    = Normal tt /\
  console (Samples.start Runs.no_credential initial_world) = [] /\
  length (connections (Samples.start Runs.no_credential initial_world)) = 1 /\
  peerConnection (Samples.start Runs.no_credential initial_world) = Some 0 /\
  network (Samples.start Runs.no_credential initial_world)
    = [sessions_request Samples.sessions_url Samples.api_key;
       webrtc_request Samples.rtc_url JUndefined "v=0 offer"].
Proof. vm_compute. repeat split; reflexivity. Qed.


Lemma good_env_negotiates : negotiates Samples.good_env.
Proof.
  exists {| ok := true; body := Samples.credential_body |},
    (JObj [("client_secret", JObj [("value", JStr "ek_1")])]), (JStr "ek_1"),
    "v=0 offer", {| ok := true; body := OtherText "v=0 answer" |}.
  repeat split; reflexivity.
Defined.

Lemma initial_configuration_bypasses_send_witness :
  negotiates Samples.good_env /\
  env_channel_state Samples.good_env = open /\
  sent_on 0 (Samples.start Samples.good_env initial_world) = [serialized (JObj initEvent)] /\
  events (Samples.start Samples.good_env initial_world) = [].
Proof.
  split; [exact good_env_negotiates|]. split; [reflexivity|].
  destruct (initial_configuration_bypasses_send
              Samples.rtc_url Samples.sessions_url Samples.api_key
              (current_render initial_world) Samples.good_env initial_world)
    as (Hev & Hsent & _).
  split; [exact (Hsent good_env_negotiates eq_refl) | exact Hev].
Defined.

Lemma model_identifier_is_the_quoted_literal_witness :
  network (Samples.start Samples.good_env initial_world)
  = [sessions_request Samples.sessions_url Samples.api_key;
     webrtc_request Samples.rtc_url (JStr "ek_1") "v=0 offer"].
Proof.
  destruct (model_identifier_is_the_quoted_literal
              Samples.rtc_url Samples.sessions_url Samples.api_key
              (current_render initial_world) Samples.good_env initial_world)
    as (_ & _ & _ & _ & Hsignals).
  exact (Hsignals {| ok := true; body := Samples.credential_body |}
           (JObj [("client_secret", JObj [("value", JStr "ek_1")])]) (JStr "ek_1")
           "v=0 offer" eq_refl eq_refl eq_refl eq_refl eq_refl eq_refl).
Defined.

(** C2 on the code. The session is started from the initial state and the
    signaling endpoint answers with a non-success status. The [catch] clause
    calls the [stopSession] of the render that started the session, whose
    [dataChannel] is still [null]: the connection and the sink are torn down and
    [isSessionActive] is false, but the channel created by this run stays in the
    [dataChannel] state. A [stopSession] of the latest render, called afterwards,
    is what clears it. *)
Theorem failed_signaling_leaves_the_channel_in_state :
  completion (startSession_try Samples.rtc_url Samples.sessions_url Samples.api_key
                Runs.signaling_rejected) initial_world
    = Throw (Error "Failed to establish WebRTC connection") /\
  dataChannel (Samples.start Runs.signaling_rejected initial_world) = Some 0 /\
  peerConnection (Samples.start Runs.signaling_rejected initial_world) = None /\
  audioElement (Samples.start Runs.signaling_rejected initial_world) = None /\
  isSessionActive (Samples.start Runs.signaling_rejected initial_world) = false /\
  state_of 0 (Samples.start Runs.signaling_rejected initial_world) = closed /\
  dataChannel
    (exec (stopSession (current_render (Samples.start Runs.signaling_rejected initial_world)))
       (Samples.start Runs.signaling_rejected initial_world)) = None.
Proof. vm_compute. repeat split; reflexivity. Qed.

(** C6 on the code. [stopSession] can complete with the channel state still
    holding a channel: it clears the state only when the render it is called
    through holds a channel. The source makes such a call itself. In the world
    the [try] block of [startSession] leaves when the signaling endpoint refuses
    the offer of a session started from the initial state, the state holds the
    new channel; the [catch] clause calls the [stopSession] of the starting
    render, whose [dataChannel] is null; when that call completes both refs are
    null and [isSessionActive] is false, but the channel state is not null. *)
Theorem stopSession_of_the_starting_render_keeps_the_channel :
  dataChannel
    (exec (startSession_try Samples.rtc_url Samples.sessions_url Samples.api_key
             Runs.signaling_rejected) initial_world) = Some 0 /\
  render_dataChannel (current_render initial_world) = None /\
  completion (stopSession (current_render initial_world))
    (exec (startSession_try Samples.rtc_url Samples.sessions_url Samples.api_key
             Runs.signaling_rejected) initial_world) = Normal tt /\
  dataChannel
    (exec (stopSession (current_render initial_world))
       (exec (startSession_try Samples.rtc_url Samples.sessions_url Samples.api_key
                Runs.signaling_rejected) initial_world)) = Some 0 /\
  peerConnection
    (exec (stopSession (current_render initial_world))
       (exec (startSession_try Samples.rtc_url Samples.sessions_url Samples.api_key
                Runs.signaling_rejected) initial_world)) = None /\
  audioElement
    (exec (stopSession (current_render initial_world))
       (exec (startSession_try Samples.rtc_url Samples.sessions_url Samples.api_key
                Runs.signaling_rejected) initial_world)) = None /\
  isSessionActive
    (exec (stopSession (current_render initial_world))
       (exec (startSession_try Samples.rtc_url Samples.sessions_url Samples.api_key
                Runs.signaling_rejected) initial_world)) = false /\
  ~ (forall (r : Render) (w : World), dataChannel (exec (stopSession r) w) = None).
Proof.
  do 7 (split; [vm_compute; reflexivity|]).
  intros Hall.
  specialize (Hall (current_render initial_world)
                (exec (startSession_try Samples.rtc_url Samples.sessions_url Samples.api_key
                         Runs.signaling_rejected) initial_world)).
  vm_compute in Hall. discriminate Hall.
Qed.


(** * Further properties of the component *)

(** ** Inbound messages *)

(** X1. What the message listener does with each kind of payload. A text that
    is not JSON ends the listener with the syntax error of [JSON.parse], and
    [null], a boolean, a number or a string end it with a type error (the
    property read on [null], the strict-mode assignment on a primitive): in
    both cases the world is left as it was, nothing is logged. An object or an
    array is logged in front with its [timestamp] property assigned -- its own
    value when that is truthy, the receiver's local time otherwise -- and its
    other properties and elements as parsed; nothing else changes. *)
Theorem handleMessage_outcomes (amb : Ambient) (data : Payload) (w : World) :
  match parse_payload data with
  | Throw e =>
      completion (handleMessage amb data) w = Throw e /\
      exec (handleMessage amb data) w = w
  | Normal (JObj props) =>
      completion (handleMessage amb data) w = Normal tt /\
      exec (handleMessage amb data) w
      = with_events
          (JObj (assign_prop "timestamp"
                   (js_or (lookup_prop "timestamp" props)
                      (JStr (toLocaleTimeString amb)))
                   props) :: events w) w
  | Normal (JArr elems named) =>
      completion (handleMessage amb data) w = Normal tt /\
      exec (handleMessage amb data) w
      = with_events
          (JArr elems
             (assign_prop "timestamp"
                (js_or (lookup_prop "timestamp" named)
                   (JStr (toLocaleTimeString amb)))
                named) :: events w) w
  | Normal JNull =>
      completion (handleMessage amb data) w
      = Throw (TypeError "Cannot read properties of null") /\
      exec (handleMessage amb data) w = w
  | Normal JUndefined =>
      completion (handleMessage amb data) w
      = Throw (TypeError "Cannot read properties of undefined") /\
      exec (handleMessage amb data) w = w
  | Normal _ =>
      completion (handleMessage amb data) w = Throw (TypeError "Cannot create property") /\
      exec (handleMessage amb data) w = w
  end.
Proof.
  unfold completion, exec, handleMessage.
  destruct (parse_payload data) as [v|e]; [|split; reflexivity].
  open_world w.
  destruct v; run_M; cbn; split; reflexivity.
Qed.

(** ** Remote tracks *)

Ltac run_more :=
  lazy beta iota zeta delta
    [ontrack set_srcObject removeChild appendChild set_autoplay track_stop
     stop_sender_track handleOpen handleClose
     mbind mret M_bind M_ret read update throw await try_catch exec completion fst snd
     dc_readyState dc_send dc_close setEvents setIsSessionActive setDataChannel
     console_error state_of sent_on channel_ready
     peerConnection_current set_peerConnection_current
     audioElement_current set_audioElement_current
     with_isSessionActive with_events with_dataChannel with_peerConnection
     with_audioElement with_connections with_channels with_audios with_tracks
     with_network with_console
     isSessionActive events dataChannel peerConnection audioElement connections
     channels audios tracks network console].

(** X2. The remote-track listener. An event without a stream changes nothing.
    An event with streams, while a sink is in the ref, makes the first stream
    the [srcObject] of that sink and changes nothing else: the element keeps
    [autoplay] and its place in the document, and every other element is
    untouched. With an empty ref (before a session, or after teardown) the
    listener throws a type error and changes nothing. *)
Theorem ontrack_binds_the_first_stream (w : World) :
  (completion (ontrack []) w = Normal tt /\ exec (ontrack []) w = w) /\
  (forall stream rest a e,
     audioElement w = Some a -> audios w !! a = Some e ->
     completion (ontrack (stream :: rest)) w = Normal tt /\
     exec (ontrack (stream :: rest)) w
       = with_audios
           (<[a := {| autoplay := autoplay e; srcObject := Some stream;
                      in_body := in_body e |}]> (audios w)) w) /\
  (forall stream rest,
     audioElement w = None ->
     (exists msg, completion (ontrack (stream :: rest)) w = Throw (TypeError msg)) /\
     exec (ontrack (stream :: rest)) w = w).
Proof.
  open_world w. run_more. split; [split; reflexivity|]. split.
  - intros stream rest a e -> He. split; [reflexivity|].
    do 2 f_equal. revert a He. induction auds as [|x auds IH]; intros [|a] He;
      try discriminate He; cbn in *.
    + now injection He as ->.
    + f_equal. now apply IH.
  - intros stream rest ->. split; [eexists|]; reflexivity.
Qed.

(** ** Teardown, in detail *)

Ltac run_stop :=
  lazy beta iota zeta delta
    [stopSession pc_getSenders pc_close alter_connection senders_of channels_of
     set_srcObject removeChild
     mbind mret M_bind M_ret read update throw await try_catch exec completion fst snd
     dc_readyState dc_send dc_close setEvents setIsSessionActive setDataChannel
     console_error state_of sent_on channel_ready
     peerConnection_current set_peerConnection_current
     audioElement_current set_audioElement_current
     with_isSessionActive with_events with_dataChannel with_peerConnection
     with_audioElement with_connections with_channels with_audios with_tracks
     with_network with_console
     isSessionActive events dataChannel peerConnection audioElement connections
     channels audios tracks network console render_dataChannel current_render].

(** The loop over the senders ends every track a sender holds and leaves the
    other tracks as they are. *)
Lemma forEach_stop_sender_track_ends (senders : list (option handle)) (w : World) :
  exists l,
    forEach stop_sender_track senders w = (Normal tt, with_tracks l w) /\
    length l = length (tracks w) /\
    (forall t, In (Some t) senders -> t < length (tracks w) ->
       l !! t = Some {| track_ended := true |}) /\
    (forall t, ~ In (Some t) senders -> l !! t = tracks w !! t) /\
    (forall t, tracks w !! t = Some {| track_ended := true |} ->
       l !! t = Some {| track_ended := true |}).
Proof.
  revert w. induction senders as [|[t0|] senders IH]; intros w.
  - exists (tracks w). cbn. rewrite with_tracks_same. repeat split; try easy.
  - destruct (IH (with_tracks (alter (fun _ => {| track_ended := true |}) t0 (tracks w)) w))
      as (l & Hl & Hlen & Hin & Hout & Hkeep).
    exists l. cbn. unfold mbind, M_bind, track_stop, update. rewrite Hl.
    destruct w as [act evs dch pcr aur conns chs auds trks net con]. cbn in *.
    rewrite length_alter in Hlen, Hin.
    assert (Hended : forall t, t < length trks ->
              alter (fun _ => {| track_ended := true |}) t trks !! t
              = Some {| track_ended := true |}).
    { intros t Ht. rewrite list_lookup_alter_eq.
      destruct (lookup_lt_is_Some_2 trks t Ht) as [x ->]. reflexivity. }
    split; [reflexivity|]. split; [exact Hlen|]. split; [|split].
    + intros t [Heq|Hrest] Ht.
      * injection Heq as ->. apply Hkeep. now apply Hended.
      * now apply Hin.
    + intros t Hnot. rewrite Hout by tauto.
      apply list_lookup_alter_ne. intros ->. apply Hnot. now left.
    + intros t Ht. apply Hkeep.
      destruct (decide (t0 = t)) as [->|Hne].
      * apply Hended. now apply lookup_lt_Some in Ht.
      * now rewrite list_lookup_alter_ne.
  - destruct (IH w) as (l & Hl & Hlen & Hin & Hout & Hkeep).
    exists l. cbn. unfold mbind, M_bind, mret, M_ret. rewrite Hl.
    split; [reflexivity|]. split; [exact Hlen|]. split; [|split].
    + intros t [Heq|Hrest] Ht; [discriminate Heq | now apply Hin].
    + intros t Hnot. apply Hout. tauto.
    + exact Hkeep.
Qed.

(** Closing channels never opens one, and closes the listed ones. *)
Lemma state_after_close_channels (dcs : list handle) (l : list RTCDataChannel) (dc : handle) :
  match close_channels dcs l !! dc, l !! dc with
  | Some c', Some c =>
      dc_label c' = dc_label c /\ dc_sent c' = dc_sent c /\
      (readyState c' = closed \/ (readyState c' = readyState c /\ ~ In dc dcs)) /\
      (In dc dcs -> readyState c' = closed)
  | None, None => True
  | _, _ => False
  end.
Proof.
  induction dcs as [|d dcs IH].
  - cbn. destruct (l !! dc); [|exact I]. repeat split; tauto.
  - change (close_channels (d :: dcs) l)
      with (alter (set_readyState closed) d (close_channels dcs l)).
    destruct (decide (d = dc)) as [->|Hne].
    + rewrite list_lookup_alter_eq.
      destruct (close_channels dcs l !! dc) as [c'|], (l !! dc) as [c|]; cbn; try easy.
      destruct IH as (Hl & Hs & _). cbn. repeat split; auto.
    + rewrite list_lookup_alter_ne by exact Hne.
      destruct (close_channels dcs l !! dc) as [c'|], (l !! dc) as [c|]; try easy.
      destruct IH as (Hl & Hs & Hst & Hin).
      split; [exact Hl|]. split; [exact Hs|]. split.
      * destruct Hst as [Hc|[Hc Hn]]; [now left|right].
        split; [exact Hc|]. intros [Heq|Hd]; [now apply Hne | now apply Hn].
      * intros [Heq|Hd]; [now destruct (Hne Heq) | now apply Hin].
Qed.

Tactic Notation "run_stop" "in" hyp(H) :=
  lazy beta iota zeta delta
    [stopSession pc_getSenders pc_close alter_connection senders_of channels_of
     set_srcObject removeChild
     mbind mret M_bind M_ret read update throw await try_catch exec completion fst snd
     dc_readyState dc_send dc_close setEvents setIsSessionActive setDataChannel
     console_error state_of sent_on channel_ready
     peerConnection_current set_peerConnection_current
     audioElement_current set_audioElement_current
     with_isSessionActive with_events with_dataChannel with_peerConnection
     with_audioElement with_connections with_channels with_audios with_tracks
     with_network with_console
     isSessionActive events dataChannel peerConnection audioElement connections
     channels audios tracks network console render_dataChannel current_render] in H.

Ltac stop_eval :=
  run_stop;
  try match goal with
      | |- context [forEach ?f ?s ?w0] =>
          let l := fresh "l" in
          let Hl := fresh "Hl" in
          let Hlen := fresh "Hlen" in
          let Hin := fresh "Hin" in
          let Hout := fresh "Hout" in
          let Hkeep := fresh "Hkeep" in
          destruct (forEach_stop_sender_track_ends s w0) as (l & Hl & Hlen & Hin & Hout & Hkeep);
          change (forEach f s w0) with (forEach stop_sender_track s w0);
          rewrite Hl; clear Hl;
          run_stop in Hlen; run_stop in Hin; run_stop in Hout; run_stop in Hkeep
      end;
  run_stop.

Lemma sent_lookup (l l' : list RTCDataChannel) (dc : nat) :
  map dc_sent l' = map dc_sent l ->
  match l' !! dc with Some c => dc_sent c | None => [] end
  = match l !! dc with Some c => dc_sent c | None => [] end.
Proof.
  revert l' dc. induction l as [|c l IH]; intros [|c' l'] dc H; try discriminate H.
  - reflexivity.
  - injection H as Hc Hl. destruct dc as [|dc]; cbn; [exact Hc | now apply IH].
Qed.

(** The teardown adds no audio element or track to the page and drops
    none. *)
Lemma stopSession_keeps_population (r : Render) (w : World) :
  length (audios (exec (stopSession r) w)) = length (audios w) /\
  length (tracks (exec (stopSession r) w)) = length (tracks w).
Proof.
  open_world w.
  destruct r as [[dc0|]]; destruct pcr as [pc|]; destruct aur as [a|]; stop_eval;
    rewrite ?length_alter; split; solve [reflexivity | assumption].
Qed.

(** X3. What [stopSession] never touches, whatever render it is called
    through: it completes normally, and the event log, the requests issued and
    the console are as before, no payload is added to or removed from any
    channel, and no browser object (connection, channel, audio element or
    track) is created or dropped. In particular the event log outlives the
    session it belongs to. *)
Theorem stopSession_keeps_log_and_traffic (r : Render) (w : World) :
  completion (stopSession r) w = Normal tt /\
  events (exec (stopSession r) w) = events w /\
  network (exec (stopSession r) w) = network w /\
  console (exec (stopSession r) w) = console w /\
  (forall dc, sent_on dc (exec (stopSession r) w) = sent_on dc w) /\
  length (connections (exec (stopSession r) w)) = length (connections w) /\
  length (channels (exec (stopSession r) w)) = length (channels w) /\
  length (audios (exec (stopSession r) w)) = length (audios w) /\
  length (tracks (exec (stopSession r) w)) = length (tracks w).
Proof.
  destruct (stopSession_keeps_population r w) as (Hauds & Htrks).
  destruct (stopSession_effect r w) as (cs & ds & xs & ts & Hrun & Hconns & Hchs & Hsent).
  unfold completion, exec in *. rewrite Hrun in *. open_world w. run_M. run_M in Hsent.
  run_M in Hauds. run_M in Htrks.
  repeat split; try reflexivity; try assumption.
  intros dc. now apply sent_lookup.
Qed.

(** X4. What [stopSession] releases when the connection ref holds a
    connection: the connection is closed and keeps its other fields, every
    track held by one of its senders is ended, and every data channel created
    on it is closed, whatever render the call goes through. *)
Theorem stopSession_releases_the_connection
    (r : Render) (w : World) (p : handle) (c : RTCPeerConnection) :
  peerConnection w = Some p ->
  connections w !! p = Some c ->
  connections (exec (stopSession r) w) !! p
    = Some {| pc_closed := true; pc_ontrack := pc_ontrack c;
              pc_senders := pc_senders c; pc_channels := pc_channels c;
              pc_localDescription := pc_localDescription c;
              pc_remoteDescription := pc_remoteDescription c |} /\
  (forall t, In (Some t) (pc_senders c) -> t < length (tracks w) ->
     tracks (exec (stopSession r) w) !! t = Some {| track_ended := true |}) /\
  (forall dc, In dc (pc_channels c) -> dc < length (channels w) ->
     state_of dc (exec (stopSession r) w) = closed).
Proof.
  intros Hp Hc. open_world w. run_stop in Hp. run_stop in Hc. subst pcr.
  assert (Hclosed : forall l dc, In dc (pc_channels c) -> dc < length l ->
            match close_channels (pc_channels c) l !! dc with
            | Some ch => readyState ch
            | None => closed
            end = closed).
  { intros l dc Hin Hlt.
    pose proof (state_after_close_channels (pc_channels c) l dc) as H.
    destruct (lookup_lt_is_Some_2 l dc Hlt) as [ch Hch]. rewrite Hch in H.
    destruct (close_channels (pc_channels c) l !! dc); [|reflexivity].
    now apply H. }
  destruct r as [[dc0|]]; destruct aur as [a|]; stop_eval; rewrite Hc in *; stop_eval.
  all: split; [rewrite list_lookup_alter_eq, Hc; reflexivity|].
  all: split; [exact Hin|].
  all: intros dc Hdc Hlt; apply Hclosed; [exact Hdc|]; now rewrite ?length_alter.
Qed.

(** X5. What [stopSession] does to the playback sink: the element in the ref
    loses its stream and is removed from the document, keeping [autoplay];
    every other audio element is untouched. *)
Theorem stopSession_detaches_the_sink
    (r : Render) (w : World) (a : handle) (e : HTMLAudioElement) :
  audioElement w = Some a ->
  audios w !! a = Some e ->
  audios (exec (stopSession r) w) !! a
    = Some {| autoplay := autoplay e; srcObject := None; in_body := false |} /\
  (forall a', a' <> a -> audios (exec (stopSession r) w) !! a' = audios w !! a').
Proof.
  intros Ha He. open_world w. run_stop in Ha. run_stop in He. subst aur.
  destruct r as [[dc0|]]; destruct pcr as [p|]; stop_eval.
  all: split; [rewrite !list_lookup_alter_eq, He; reflexivity|].
  all: intros a' Hne; now rewrite !list_lookup_alter_ne by congruence.
Qed.

Lemma start_closing_settled (c : RTCDataChannel) : settled (readyState (start_closing c)).
Proof.
  unfold start_closing, settled. destruct (readyState c) eqn:E; cbn; rewrite ?E; tauto.
Qed.

Lemma close_channels_settled (dcs : list handle) (l : list RTCDataChannel) (dc : handle) :
  (forall c, l !! dc = Some c -> settled (readyState c)) ->
  forall c', close_channels dcs l !! dc = Some c' -> settled (readyState c').
Proof.
  intros Hl c' Hc'.
  pose proof (state_after_close_channels dcs l dc) as H. rewrite Hc' in H.
  destruct (l !! dc) as [c|] eqn:Hc; [|easy].
  destruct H as (_ & _ & [Hcl|[Heq _]] & _).
  - right. exact Hcl.
  - rewrite Heq. now apply Hl.
Qed.

Lemma settled_not_open (s : ReadyState) : settled s -> ReadyState_eqb s open = false.
Proof. now intros [-> | ->]. Qed.

Lemma alter_start_closing_settled (l : list RTCDataChannel) (dc : handle) :
  (forall c, l !! dc = Some c -> settled (readyState c)) ->
  alter start_closing dc l = l.
Proof.
  intros H. rewrite <- (list_alter_id id l dc) at 2 by reflexivity.
  apply list_alter_ext; [|reflexivity].
  intros c Hc. unfold start_closing. now destruct (H c Hc) as [-> | ->].
Qed.

Lemma lookup_start_closing_settled (l : list RTCDataChannel) (dc : handle) :
  forall c, alter start_closing dc l !! dc = Some c -> settled (readyState c).
Proof.
  intros c. rewrite list_lookup_alter_eq.
  destruct (l !! dc); cbn; [|discriminate].
  intros [= <-]. apply start_closing_settled.
Qed.

(** X6. After [stopSession] nothing can be sent through the closure it was
    called through: the channel of that render is closing or closed, so a
    later [sendClientEvent] of the same render is dropped with the "not
    ready" error, adding nothing to the log or to any channel. *)
Theorem after_stopSession_sends_are_dropped
    (r : Render) (amb : Ambient) (message : JsObject) (w : World) :
  channel_ready r (exec (stopSession r) w) = false /\
  exec (sendClientEvent r amb message) (exec (stopSession r) w)
    = with_console (console w ++ [not_ready_entry]) (exec (stopSession r) w).
Proof.
  assert (Hready : channel_ready r (exec (stopSession r) w) = false).
  { open_world w. destruct r as [[dc0|]]; [|reflexivity].
    pose proof (lookup_start_closing_settled chs dc0) as H0.
    destruct pcr as [p|]; destruct aur as [a|]; stop_eval.
    all: match goal with
         | |- ReadyState_eqb match ?x with _ => _ end _ = _ =>
             destruct x as [c'|] eqn:Hc' in |- *; [|reflexivity]
         end.
    all: apply settled_not_open.
    all: first [ now apply (close_channels_settled _ _ _ H0 c' Hc')
               | now apply (H0 c' Hc') ]. }
  split; [exact Hready|].
  unfold exec at 1. rewrite (sendClientEvent_not_ready r amb message _ Hready).
  destruct (stopSession_effect r w) as (cs & ds & xs & ts & Hrun & _).
  unfold exec. rewrite Hrun. now open_world w.
Qed.

(** X7. [stopSession] is idempotent: a second call through the same render
    leaves the world exactly as the first call left it. *)
Theorem stopSession_twice_is_once (r : Render) (w : World) :
  exec (stopSession r) (exec (stopSession r) w) = exec (stopSession r) w.
Proof.
  open_world w. destruct r as [[dc0|]]; destruct pcr as [p|]; destruct aur as [a|];
    stop_eval; try reflexivity.
  all: f_equal; apply alter_start_closing_settled.
  all: first [ apply close_channels_settled; apply lookup_start_closing_settled
             | apply lookup_start_closing_settled ].
Qed.

(** ** Outbound messages, field by field *)

(** X8. [sendClientEvent] passes the caller's fields through: on an open
    channel, every field of the message other than [event_id] and [timestamp]
    is logged with the value it had, and, when that value has a JSON text,
    the transmitted payload carries that text under the same key. *)
Theorem sendClientEvent_passes_fields_through
    (r : Render) (amb : Ambient) (message : JsObject) (w : World) (k : string) :
  channel_ready r w = true ->
  String.eqb k "event_id" = false ->
  String.eqb k "timestamp" = false ->
  exists dc sent,
    render_dataChannel r = Some dc /\
    events (exec (sendClientEvent r amb message) w) = JObj sent :: events w /\
    sent_on dc (exec (sendClientEvent r amb message) w)
      = sent_on dc w ++ [serialized (JObj sent)] /\
    lookup_prop k sent = lookup_prop k message /\
    (forall j, JSON_stringify (lookup_prop k message) = Some j ->
       payload_member k (serialized (JObj sent)) = Some j).
Proof.
  intros Hready Hid Hts.
  destruct (accepted_send_effect r amb message w Hready) as (dc & Hr & Hlog & Hsent).
  exists dc, (stamp amb message).
  split; [exact Hr|]. split; [exact Hlog|]. split; [exact Hsent|].
  pose proof (stamp_other amb message k Hid Hts) as Hsame.
  split; [exact Hsame|].
  intros j Hj. apply stringify_member. now rewrite Hsame.
Qed.

(** ** A sent event that comes back *)

Lemma assign_prop_keys (k : string) (v : JsValue) (o : JsObject) :
  map fst (assign_prop k v o)
  = if has_prop k o then map fst o else map fst o ++ [k].
Proof.
  unfold has_prop. induction o as [|[k' v'] o IH]; cbn; [reflexivity|].
  destruct (String.eqb k k') eqn:E; cbn; [reflexivity|].
  rewrite IH. now destruct (existsb _ o).
Qed.

Lemma has_prop_In (k : string) (o : JsObject) :
  has_prop k o = true <-> In k (map fst o).
Proof.
  unfold has_prop. rewrite existsb_exists. split.
  - intros ([k' v] & Hin & Heq). cbn in Heq. apply String.eqb_eq in Heq. subst k'.
    apply in_map_iff. now exists (k, v).
  - intros Hin. apply in_map_iff in Hin as ([k' v] & Heq & Hin). cbn in Heq. subst k'.
    exists (k, v). split; [exact Hin | apply String.eqb_refl].
Qed.

Lemma assign_prop_distinct (k : string) (v : JsValue) (o : JsObject) :
  distinct_keys o -> distinct_keys (assign_prop k v o).
Proof.
  unfold distinct_keys. intros Hnd. rewrite assign_prop_keys.
  destruct (has_prop k o) eqn:E; [exact Hnd|].
  apply NoDup_app. split; [exact Hnd|]. split; [|apply NoDup_singleton].
  intros x Hx Hin. apply list_elem_of_In in Hx. apply list_elem_of_In in Hin.
  destruct Hin as [<-|[]].
  apply has_prop_In in Hx. congruence.
Qed.

Lemma stamp_distinct (amb : Ambient) (message : JsObject) :
  distinct_keys message -> distinct_keys (stamp amb message).
Proof. intros H. unfold stamp. now do 2 apply assign_prop_distinct. Qed.

(** Defining the remaining members does not touch a key they do not name. *)
Lemma lookup_fold_assign_other (k : string) (kvs : list (string * JsValue)) (acc : JsObject) :
  ~ In k (map fst kvs) ->
  lookup_prop k (fold_left (fun o kv => assign_prop kv.1 kv.2 o) kvs acc)
  = lookup_prop k acc.
Proof.
  revert acc. induction kvs as [|[k' v'] kvs IH]; intros acc Hnot; cbn; [reflexivity|].
  rewrite IH by (cbn in Hnot; tauto).
  apply lookup_assign_other. cbn in Hnot.
  destruct (String.eqb k k') eqn:E; [|reflexivity].
  apply String.eqb_eq in E. subst k'. tauto.
Qed.

Lemma stringified_keys (k : string) (o : JsObject) :
  In k (map fst (map (fun kv : string * Json => (kv.1, JSON_parse kv.2))
                   (omap (fun kv : string * JsValue =>
                            match JSON_stringify kv.2 with
                            | Some j => Some (kv.1, j)
                            | None => None
                            end) o))) ->
  In k (map fst o).
Proof.
  induction o as [|[k' v'] o IH]; cbn; [easy|].
  destruct (JSON_stringify v'); cbn; intuition.
Qed.

(** A string-valued field of an object with distinct keys survives
    [JSON.stringify] followed by [JSON.parse]. *)
Lemma string_field_round_trip (k s : string) (o : JsObject) (j : Json) :
  distinct_keys o ->
  lookup_prop k o = JStr s ->
  JSON_stringify (JObj o) = Some j ->
  exists props, JSON_parse j = JObj props /\ lookup_prop k props = JStr s.
Proof.
  intros Hnd Hk Hj. cbn in Hj. injection Hj as <-. cbn. eexists. split; [reflexivity|].
  generalize (@nil (string * JsValue)) as acc.
  unfold distinct_keys in Hnd.
  induction o as [|[k' v'] o IH]; intros acc; [discriminate Hk|].
  cbn in Hnd. apply NoDup_cons in Hnd as [Hhead Hnd]. cbn in Hk.
  destruct (String.eqb k k') eqn:E.
  - apply String.eqb_eq in E. subst k' v'. cbn.
    rewrite lookup_fold_assign_other.
    + apply lookup_assign_same.
    + intros Hin. apply stringified_keys in Hin. apply Hhead. now apply list_elem_of_In.
  - cbn. destruct (JSON_stringify v'); cbn; now apply IH.
Qed.

(** X9. An event that comes back keeps the sender's stamps. Take a message
    with distinct keys and without [event_id] and [timestamp], stamp it as
    [sendClientEvent] does, and let the peer send the transmitted text back:
    the message listener logs it with the identifier and the time the sender
    gave it, not with the time of arrival. The sender's time string has to be
    non-empty, as [toLocaleTimeString()] always is. *)
Theorem echoed_event_keeps_its_stamps
    (amb1 amb2 : Ambient) (message : JsObject) (w : World) :
  distinct_keys message ->
  has_prop "event_id" message = false ->
  has_prop "timestamp" message = false ->
  toLocaleTimeString amb1 <> EmptyString ->
  exists received,
    completion (handleMessage amb2 (serialized (JObj (stamp amb1 message)))) w = Normal tt /\
    events (exec (handleMessage amb2 (serialized (JObj (stamp amb1 message)))) w)
      = JObj received :: events w /\
    lookup_prop "event_id" received = JStr (randomUUID amb1) /\
    lookup_prop "timestamp" received = JStr (toLocaleTimeString amb1).
Proof.
  intros Hnd Hid Hts Htime.
  pose proof (stamp_distinct amb1 message Hnd) as Hnd'.
  assert (Hid' : lookup_prop "event_id" (stamp amb1 message) = JStr (randomUUID amb1)).
  { rewrite stamp_event_id, (lookup_absent _ _ Hid). reflexivity. }
  assert (Hts' : lookup_prop "timestamp" (stamp amb1 message)
                 = JStr (toLocaleTimeString amb1)).
  { rewrite stamp_timestamp, (lookup_absent _ _ Hts). reflexivity. }
  destruct (JSON_stringify (JObj (stamp amb1 message))) as [j|] eqn:Hj;
    [|discriminate Hj].
  destruct (string_field_round_trip _ _ _ j Hnd' Hid' Hj) as (props & Hparse & Hpid).
  destruct (string_field_round_trip _ _ _ j Hnd' Hts' Hj) as (props' & Hparse' & Hpts).
  rewrite Hparse in Hparse'. injection Hparse' as <-.
  assert (Hdata : parse_payload (serialized (JObj (stamp amb1 message))) = Normal (JObj props)).
  { unfold serialized. rewrite Hj. cbn [parse_payload]. now rewrite Hparse. }
  eexists. unfold completion, exec.
  rewrite (handleMessage_object amb2 _ props w Hdata).
  open_world w. run_M.
  split; [reflexivity|]. split; [reflexivity|].
  rewrite Hpts.
  assert (Htruthy : js_or (JStr (toLocaleTimeString amb1)) (JStr (toLocaleTimeString amb2))
                    = JStr (toLocaleTimeString amb1)).
  { unfold js_or. cbn [truthy].
    destruct (String.eqb (toLocaleTimeString amb1) EmptyString) eqn:E; [|reflexivity].
    apply String.eqb_eq in E. contradiction. }
  rewrite Htruthy. split.
  - rewrite lookup_assign_other by reflexivity. exact Hpid.
  - apply lookup_assign_same.
Qed.

Lemma echoed_event_keeps_its_stamps_witness :
  distinct_keys Runs.hello /\
  toLocaleTimeString Samples.amb0 <> EmptyString /\
  exists received,
    events (exec (handleMessage Runs.amb1
                    (serialized (JObj (stamp Samples.amb0 Runs.hello)))) Runs.active_world)
      = JObj received :: events Runs.active_world /\
    lookup_prop "event_id" received = JStr "3f2c" /\
    lookup_prop "timestamp" received = JStr "10:15:00 AM".
Proof.
  assert (Hnd : distinct_keys Runs.hello).
  { unfold distinct_keys. cbn. apply NoDup_cons. split; [|apply NoDup_nil_2].
    intros H. inversion H. }
  assert (Htime : toLocaleTimeString Samples.amb0 <> EmptyString) by discriminate.
  split; [exact Hnd|]. split; [exact Htime|].
  destruct (echoed_event_keeps_its_stamps Samples.amb0 Runs.amb1 Runs.hello
              Runs.active_world Hnd eq_refl eq_refl Htime)
    as (received & _ & Hev & Hid & Hts).
  exists received. split; [exact Hev|]. split; [exact Hid | exact Hts].
Defined.

(** ** Runs of [startSession], by outcome *)

Ltac snoc_lookup :=
  match goal with
  | |- context [ (?l ++ [?x]) !! (length ?l) ] => rewrite (lookup_snoc l x)
  end.

Section StartOutcomes.

Variables WEBRTC_URL SESSIONS_URL API_KEY : string.

Local Abbreviation startSession_try := (startSession_try WEBRTC_URL SESSIONS_URL API_KEY).
Local Abbreviation startSession := (startSession WEBRTC_URL SESSIONS_URL API_KEY).
Local Abbreviation sessions_request := (sessions_request SESSIONS_URL API_KEY).
Local Abbreviation webrtc_request := (webrtc_request WEBRTC_URL).

Lemma provisioning_Normal (env : StartEnv) (key : JsValue) :
  provisioning env = Normal key ->
  exists resp sessionData,
    env_sessions_fetch env = Normal resp /\ ok resp = true /\
    parse_payload (body resp) = Normal sessionData /\
    client_secret_value sessionData = Normal key.
Proof.
  unfold provisioning. destruct (env_sessions_fetch env) as [resp|e]; [|discriminate].
  destruct (ok resp) eqn:Hok; [|discriminate].
  destruct (parse_payload (body resp)) as [sessionData|e] eqn:Hparse; [|discriminate].
  intros Hkey. now exists resp, sessionData.
Qed.

Lemma startSession_try_provisioning_fails (env : StartEnv) (w : World) (e : JsError) :
  provisioning env = Throw e ->
  startSession_try env w
  = (Throw e, with_network (network w ++ [sessions_request]) w).
Proof.
  unfold provisioning. destruct env as [sf um co sl wf sr cs]. cbn [env_sessions_fetch].
  open_world w.
  destruct sf as [[[|] body1]|e1]; cbn [ok body]; run_start.
  - destruct (parse_payload body1) as [sessionData|e2]; run_start.
    + destruct (client_secret_value sessionData) as [key|e3]; [discriminate|].
      now intros [= ->].
    + now intros [= ->].
  - now intros [= <-].
  - now intros [= ->].
Qed.

(** X10. Every way the provisioning phase can fail ends the same way. When
    the request fails, the status is not a success, the body is not JSON, or the
    credential expression throws (a [null] body), [startSession] completes
    normally after logging that error as "Session error:"; the provisioning
    request is the only one issued and no connection or channel is created.
    Called from the idle state through the latest render, it changes nothing
    but the request log and the console. *)
Theorem failed_provisioning_constructs_nothing
    (r : Render) (env : StartEnv) (w : World) (e : JsError) :
  provisioning env = Throw e ->
  completion (startSession r env) w = Normal tt /\
  console (exec (startSession r env) w) = console w ++ [session_error e] /\
  network (exec (startSession r env) w) = network w ++ [sessions_request] /\
  length (connections (exec (startSession r env) w)) = length (connections w) /\
  length (channels (exec (startSession r env) w)) = length (channels w) /\
  (idle w -> r = current_render w ->
   exec (startSession r env) w
   = with_console (console w ++ [session_error e])
       (with_network (network w ++ [sessions_request]) w)).
Proof.
  intros Hprov.
  pose proof (startSession_try_provisioning_fails env w e Hprov) as Htry.
  unfold completion, exec. rewrite startSession_unfold, Htry.
  destruct (stopSession_effect r
              (with_console
                 (console (with_network (network w ++ [sessions_request]) w)
                  ++ [session_error e])
                 (with_network (network w ++ [sessions_request]) w)))
    as (cs & ds & xs & ts & Hrun & Hconns & Hchs & _).
  split; [now rewrite Hrun|]. split; [rewrite Hrun; now open_world w|].
  split; [rewrite Hrun; now open_world w|].
  split; [rewrite Hrun; open_world w; exact Hconns|].
  split; [rewrite Hrun; open_world w; exact Hchs|].
  intros (Ha & Hd & Hp & Hau) ->. clear Hrun Hconns Hchs.
  open_world w. cbn in Ha, Hd, Hp, Hau. subst act dch pcr aur. reflexivity.
Qed.

(** X11. A start in which every step of the handshake succeeds, in full.
    [startSession] completes normally and leaves the world it started from
    with exactly this added: one connection, not closed, with the track listener
    set, the offer as local and the answer as remote description and the new
    channel as its only channel; one channel labelled "azure-oai-events" in the
    state the browser brought it to, which was handed the configuration message
    if and only if that state is open; one audio element with [autoplay],
    attached to the document and without a stream; the provisioning and the
    signaling request, in this order. The state and the refs hold the three new
    objects; [isSessionActive] and the event log are as before. A granted
    microphone adds one live track, held by the only sender of the connection;
    a refused one adds no track and no sender, and one console entry. *)
Theorem successful_start_builds_the_session
    (r : Render) (env : StartEnv) (w : World)
    (key : JsValue) (offer : string) (answer : Response) :
  provisioning env = Normal key ->
  env_createOffer env = Normal offer ->
  env_setLocalDescription env = Normal tt ->
  env_webrtc_fetch env = Normal answer -> ok answer = true ->
  env_setRemoteDescription env = Normal tt ->
  startSession r env w
  = (Normal tt,
     {| isSessionActive := isSessionActive w;
        events := events w;
        dataChannel := Some (length (channels w));
        peerConnection := Some (length (connections w));
        audioElement := Some (length (audios w));
        connections :=
          connections w ++
          [{| pc_closed := false; pc_ontrack := true;
              pc_senders := match env_getUserMedia env with
                            | Normal _ => [Some (length (tracks w))]
                            | Throw _ => []
                            end;
              pc_channels := [length (channels w)];
              pc_localDescription := Some offer;
              pc_remoteDescription := Some (body answer) |}];
        channels :=
          channels w ++
          [{| dc_label := "azure-oai-events";
              readyState := env_channel_state env;
              dc_sent := if ReadyState_eqb (env_channel_state env) open
                         then [serialized (JObj initEvent)]
                         else [] |}];
        audios :=
          audios w ++ [{| autoplay := true; srcObject := None; in_body := true |}];
        tracks := tracks w ++ match env_getUserMedia env with
                              | Normal _ => [{| track_ended := false |}]
                              | Throw _ => []
                              end;
        network := network w ++ [sessions_request; webrtc_request key offer];
        console := console w ++ match env_getUserMedia env with
                                | Normal _ => []
                                | Throw err => [microphone_error err]
                                end |}).
Proof.
  intros Hprov Hco Hsl Hwf Hok Hsr.
  destruct (provisioning_Normal env key Hprov) as (resp & sessionData & Hf & Hok1 & Hparse & Hkey).
  rewrite startSession_unfold.
  destruct env as [sf um co sl wf sr cs]. cbn in Hf, Hco, Hsl, Hwf, Hsr.
  subst sf co sl wf sr.
  destruct resp as [ok1 body1]. destruct answer as [ok2 body2].
  cbn in Hok1, Hparse, Hok. subst ok1 ok2.
  open_world w. run_start. rewrite Hparse. run_start. rewrite Hkey. run_start.
  destruct um as [[]|err]; run_start.
  all: rewrite !alter_snoc; snoc_lookup; run_start.
  all: destruct cs; run_start.
  all: try (snoc_lookup; run_start; rewrite ?alter_snoc).
  all: rewrite <- ?app_assoc, ?app_nil_r; reflexivity.
Qed.

(** X12. The credential reaches the signaling request unchanged. When the
    provisioning body is an object whose [client_secret] is an object, the
    signaling request, issued once the offer is set, is a POST to the
    configured URL with the model query, authorized with `Bearer` followed by
    the [value] of that object, with content type "application/sdp" and the
    offer as body. It follows the provisioning request, whatever happens to it
    afterwards. *)
Theorem credential_reaches_the_signaling_request
    (r : Render) (env : StartEnv) (w : World) (resp : Response)
    (props secret : JsObject) (offer : string) :
  env_sessions_fetch env = Normal resp -> ok resp = true ->
  parse_payload (body resp) = Normal (JObj props) ->
  lookup_prop "client_secret" props = JObj secret ->
  env_createOffer env = Normal offer ->
  env_setLocalDescription env = Normal tt ->
  network (exec (startSession r env) w)
  = network w ++
    [sessions_request;
     {| req_url := WEBRTC_URL ++ "?model=" ++ DEPLOYMENT;
        req_method := "POST";
        req_headers := [("Authorization", Bearer (lookup_prop "value" secret));
                        ("Content-Type", Literal "application/sdp")];
        req_body := OtherText offer |}].
Proof.
  intros Hf Hok Hparse Hsecret Hco Hsl.
  assert (Hkey : client_secret_value (JObj props) = Normal (lookup_prop "value" secret)).
  { unfold client_secret_value. cbn. now rewrite Hsecret. }
  destruct (startSession_effect WEBRTC_URL SESSIONS_URL API_KEY r env w)
    as (_ & _ & Hnet & _).
  rewrite Hnet.
  apply (startSession_try_signals WEBRTC_URL SESSIONS_URL API_KEY env w resp
           (JObj props) (lookup_prop "value" secret) offer Hf Hok Hparse Hkey Hco Hsl).
Qed.

End StartOutcomes.
Section FailedStart.

Variables WEBRTC_URL SESSIONS_URL API_KEY : string.

Local Abbreviation startSession_try := (startSession_try WEBRTC_URL SESSIONS_URL API_KEY).
Local Abbreviation startSession := (startSession WEBRTC_URL SESSIONS_URL API_KEY).
Local Abbreviation sessions_request := (sessions_request SESSIONS_URL API_KEY).
Local Abbreviation webrtc_request := (webrtc_request WEBRTC_URL).

(** The world in which the [try] block stops when it fails after the
    provisioning phase: the new objects exist, the channel is still connecting
    and has been handed nothing, and no answer has been applied. *)
Lemma startSession_try_failure_world (env : StartEnv) (w : World) (key : JsValue) :
  provisioning env = Normal key ->
  match startSession_try env w with
  | (Normal _, _) => True
  | (Throw _, w1) =>
      w1 = {| isSessionActive := isSessionActive w;
              events := events w;
              dataChannel := Some (length (channels w));
              peerConnection := Some (length (connections w));
              audioElement := Some (length (audios w));
              connections :=
                connections w ++
                [{| pc_closed := false; pc_ontrack := true;
                    pc_senders := match env_getUserMedia env with
                                  | Normal _ => [Some (length (tracks w))]
                                  | Throw _ => []
                                  end;
                    pc_channels := [length (channels w)];
                    pc_localDescription :=
                      match env_createOffer env, env_setLocalDescription env with
                      | Normal offer, Normal _ => Some offer
                      | _, _ => None
                      end;
                    pc_remoteDescription := None |}];
              channels :=
                channels w ++
                [{| dc_label := "azure-oai-events"; readyState := connecting;
                    dc_sent := [] |}];
              audios :=
                audios w ++ [{| autoplay := true; srcObject := None; in_body := true |}];
              tracks := tracks w ++ match env_getUserMedia env with
                                    | Normal _ => [{| track_ended := false |}]
                                    | Throw _ => []
                                    end;
              network :=
                network w ++
                sessions_request ::
                match env_createOffer env, env_setLocalDescription env with
                | Normal offer, Normal _ => [webrtc_request key offer]
                | _, _ => []
                end;
              console := console w ++ match env_getUserMedia env with
                                      | Normal _ => []
                                      | Throw err => [microphone_error err]
                                      end |}
  end.
Proof.
  intros Hprov.
  destruct (provisioning_Normal env key Hprov) as (resp & sessionData & Hf & Hok1 & Hparse & Hkey).
  destruct env as [sf um co sl wf sr cs]. cbn in Hf. subst sf.
  destruct resp as [ok1 body1]. cbn in Hok1, Hparse. subst ok1.
  open_world w. run_start. rewrite Hparse. run_start. rewrite Hkey. run_start.
  destruct um as [[]|err], co as [offer|eo]; run_start.
  all: try destruct sl as [[]|esl]; run_start.
  all: try destruct wf as [[[|] body2]|ewf]; run_start.
  all: try destruct sr as [[]|esr]; run_start.
  all: rewrite ?alter_snoc; try snoc_lookup; run_start.
  all: try (destruct cs; run_start; try (snoc_lookup; run_start); exact I).
  all: rewrite <- ?app_assoc, ?app_nil_r; reflexivity.
Qed.

Ltac run_teardown :=
  lazy beta iota zeta delta
    [stopSession pc_getSenders pc_close alter_connection senders_of channels_of
     set_srcObject removeChild set_in_body forEach stop_sender_track track_stop
     close_channels fold_right pc_senders pc_channels pc_closed pc_remoteDescription
     pc_ontrack pc_localDescription autoplay srcObject in_body
     session_error env_getUserMedia
     mbind mret M_bind M_ret read update throw await try_catch exec completion fst snd
     dc_readyState dc_send dc_close setEvents setIsSessionActive setDataChannel
     console_error state_of sent_on channel_ready
     peerConnection_current set_peerConnection_current
     audioElement_current set_audioElement_current
     with_isSessionActive with_events with_dataChannel with_peerConnection
     with_audioElement with_connections with_channels with_audios with_tracks
     with_network with_console
     isSessionActive events dataChannel peerConnection audioElement connections
     channels audios tracks network console render_dataChannel].

Lemma closed_after_alter (l : list RTCDataChannel) (n : nat) :
  match alter (set_readyState closed) n l !! n with
  | Some c => readyState c
  | None => closed
  end = closed.
Proof. rewrite list_lookup_alter_eq. now destruct (l !! n). Qed.

Lemma sent_after_closing (l : list RTCDataChannel) (dc0 n : nat) :
  match alter (set_readyState closed) n (alter start_closing dc0 l) !! n with
  | Some c => dc_sent c
  | None => []
  end
  = match l !! n with Some c => dc_sent c | None => [] end.
Proof.
  apply sent_lookup. rewrite sent_alter by reflexivity.
  apply sent_alter, sent_start_closing.
Qed.

(** X13. What a start that fails after the provisioning phase leaves of the
    objects it created, whatever step failed and whatever render it was called
    through. [startSession] completes normally with both refs empty and
    [isSessionActive] false; the new connection is closed and no answer was
    applied to it; the new channel is closed and was never handed a payload;
    the new audio element is out of the document, without a stream; and the
    microphone track, if one was granted, is ended. *)
Theorem failed_start_releases_what_it_created
    (r : Render) (env : StartEnv) (w : World) (key : JsValue) (e : JsError) :
  provisioning env = Normal key ->
  completion (startSession_try env) w = Throw e ->
  completion (startSession r env) w = Normal tt /\
  peerConnection (exec (startSession r env) w) = None /\
  audioElement (exec (startSession r env) w) = None /\
  isSessionActive (exec (startSession r env) w) = false /\
  (exists c, connections (exec (startSession r env) w) !! length (connections w) = Some c /\
             pc_closed c = true /\ pc_remoteDescription c = None) /\
  state_of (length (channels w)) (exec (startSession r env) w) = closed /\
  sent_on (length (channels w)) (exec (startSession r env) w) = [] /\
  audios (exec (startSession r env) w) !! length (audios w)
    = Some {| autoplay := true; srcObject := None; in_body := false |} /\
  (env_getUserMedia env = Normal tt ->
   tracks (exec (startSession r env) w) !! length (tracks w)
     = Some {| track_ended := true |}).
Proof.
  intros Hprov Hthrow.
  pose proof (startSession_try_failure_world env w key Hprov) as Hworld.
  unfold completion, exec in *. rewrite startSession_unfold.
  destruct (startSession_try env w) as [[[]|e'] w1]; [discriminate Hthrow|].
  subst w1. clear Hthrow Hprov.
  destruct env as [sf um co sl wf sr cs]. open_world w.
  destruct r as [[dc0|]]; destruct um as [[]|err]; run_teardown.
  all: repeat (snoc_lookup; run_teardown).
  all: rewrite ?alter_snoc; run_teardown.
  all: do 4 (split; [reflexivity|]).
  all: split; [eexists; split; [apply lookup_snoc | split; reflexivity]|].
  all: split; [first [apply closed_after_alter | snoc_lookup; reflexivity]|].
  all: split;
    [first [ snoc_lookup; reflexivity
           | rewrite sent_after_closing; snoc_lookup; reflexivity ]|].
  all: split; [apply lookup_snoc|].
  all: intros Hmic; first [apply lookup_snoc | discriminate Hmic].
Qed.

End FailedStart.

(** ** Sequences of calls *)

Section Traces.

Variables WEBRTC_URL SESSIONS_URL API_KEY : string.

Local Abbreviation startSession_try := (startSession_try WEBRTC_URL SESSIONS_URL API_KEY).
Local Abbreviation startSession := (startSession WEBRTC_URL SESSIONS_URL API_KEY).
Local Abbreviation perform := (perform WEBRTC_URL SESSIONS_URL API_KEY).
Local Abbreviation run := (run WEBRTC_URL SESSIONS_URL API_KEY).

(** The [try] block keeps the sink attached: either it stops before the
    element is created, or the ref holds the element it has just appended. *)
Lemma startSession_try_sink_attached (env : StartEnv) (w : World) :
  sink_attached w -> sink_attached (exec (startSession_try env) w).
Proof.
  unfold sink_attached. intros Hw.
  destruct env as [sf um co sl wf sr cs]. open_world w. cbn in Hw.
  assert (Hnew : forall a, Some (length auds) = Some a ->
            exists e, (auds ++ [{| autoplay := true; srcObject := None; in_body := true |}])
                        !! a = Some e /\ in_body e = true).
  { intros a [= <-]. eexists. split; [apply lookup_snoc | reflexivity]. }
  destruct sf as [[[|] body1]|e1]; run_start; try exact Hw.
  destruct (parse_payload body1) as [sessionData|e2]; run_start; try exact Hw.
  destruct (client_secret_value sessionData) as [key|e3]; run_start; try exact Hw.
  destruct um as [[]|err], co as [offer|eo]; run_start.
  all: try destruct sl as [[]|esl]; run_start.
  all: try destruct wf as [[[|] body2]|ewf]; run_start.
  all: try destruct sr as [[]|esr]; run_start.
  all: rewrite ?alter_snoc; try snoc_lookup; run_start.
  all: try (destruct cs; run_start; try (snoc_lookup; run_start)).
  all: exact Hnew.
Qed.

Lemma sendClientEvent_frame (r : Render) (amb : Ambient) (message : JsObject) (w : World) :
  exists front,
    events (exec (sendClientEvent r amb message) w) = front ++ events w /\
    isSessionActive (exec (sendClientEvent r amb message) w) = isSessionActive w /\
    audioElement (exec (sendClientEvent r amb message) w) = audioElement w /\
    audios (exec (sendClientEvent r amb message) w) = audios w /\
    network (exec (sendClientEvent r amb message) w) = network w.
Proof.
  unfold exec. destruct (channel_ready r w) eqn:Hready.
  - destruct (sendClientEvent_ready r amb message w Hready) as (dc & _ & ->).
    exists [JObj (stamp amb message)]. now open_world w.
  - rewrite (sendClientEvent_not_ready r amb message w Hready).
    exists []. now open_world w.
Qed.

(** What one call can do to the log, the activity flag, the sink and the
    request log. *)
Lemma perform_frame (a : Action) (w : World) :
  (a = Open \/ grown_in_front (events w) (events (exec (perform a) w))) /\
  (isSessionActive (exec (perform a) w) = true -> a = Open \/ isSessionActive w = true) /\
  (sink_attached w -> sink_attached (exec (perform a) w)) /\
  ((exists r env, a = StartSession r env) \/
   network (exec (perform a) w) = network w).
Proof.
  destruct a as [r env|r|r amb message|r amb1 amb2 message|amb data| | |streams];
    cbn [Lifecycle.perform].
  - (* startSession *)
    destruct (startSession_effect WEBRTC_URL SESSIONS_URL API_KEY r env w)
      as (_ & Hev & _ & _ & Hthrow).
    destruct (startSession_try_frame WEBRTC_URL SESSIONS_URL API_KEY env w)
      as (Hev' & Hact' & _).
    pose proof (startSession_try_sink_attached env w) as Hsink.
    split; [right; exists []; now rewrite Hev, Hev'|].
    split; [|split; [|left; eauto]].
    + intros Hact. right. rewrite <- Hact', <- Hact.
      unfold exec in *. unfold completion in Hthrow.
      rewrite startSession_unfold in *.
      destruct (startSession_try env w) as [[[]|e] w1]; [reflexivity|].
      destruct (Hthrow e eq_refl) as (Hfalse & _). cbn in Hact. congruence.
    + intros Hw. specialize (Hsink Hw).
      unfold exec in *. unfold completion in Hthrow.
      rewrite startSession_unfold in *.
      destruct (startSession_try env w) as [[[]|e] w1]; [exact Hsink|].
      destruct (Hthrow e eq_refl) as (_ & _ & Hau & _).
      intros a Ha. cbn in Ha, Hau. congruence.
  - (* stopSession *)
    destruct (stopSession_effect r w) as (cs & ds & xs & ts & Hrun & _).
    unfold exec. rewrite Hrun. open_world w. run_M.
    split; [right; now exists []|]. split; [discriminate|].
    split; [intros _ a Ha; discriminate Ha | now right].
  - (* sendClientEvent *)
    destruct (sendClientEvent_frame r amb message w) as (front & Hev & Hact & Hau & Hauds & Hnet).
    split; [right; now exists front|]. split; [rewrite Hact; tauto|].
    split; [|now right].
    unfold sink_attached. now rewrite Hau, Hauds.
  - (* sendTextMessage *)
    unfold sendTextMessage, exec, mbind, M_bind.
    pose proof (sendClientEvent_frame r amb1 (conversation_item_create message) w) as H1.
    unfold exec in H1.
    destruct (sendClientEvent r amb1 (conversation_item_create message) w) as [[[]|e] w1].
    + pose proof (sendClientEvent_frame r amb2 response_create w1) as H2.
      unfold exec in H2.
      destruct (sendClientEvent r amb2 response_create w1) as [c2 w2]. cbn in *.
      destruct H1 as (f1 & Hev1 & Hact1 & Hau1 & Hauds1 & Hnet1).
      destruct H2 as (f2 & Hev2 & Hact2 & Hau2 & Hauds2 & Hnet2).
      split; [right; exists (f2 ++ f1); now rewrite Hev2, Hev1, app_assoc|].
      split; [rewrite Hact2, Hact1; tauto|].
      split; [|right; congruence].
      unfold sink_attached. now rewrite Hau2, Hauds2, Hau1, Hauds1.
    + cbn in *. destruct H1 as (f1 & Hev1 & Hact1 & Hau1 & Hauds1 & Hnet1).
      split; [right; now exists f1|]. split; [rewrite Hact1; tauto|].
      split; [|now right].
      unfold sink_attached. now rewrite Hau1, Hauds1.
  - (* the message listener *)
    unfold handleMessage, exec. open_world w.
    unfold sink_attached, grown_in_front.
    destruct (parse_payload data) as [v|e]; [destruct v|]; run_M; cbn.
    all: split; [right; first [now exists [] | eexists [_]; reflexivity]|].
    all: split; [tauto|]. all: split; [tauto | now right].
  - (* the open listener *)
    open_world w. run_more.
    split; [now left|]. split; [now left|]. split; [exact (fun H => H) | now right].
  - (* the close listener *)
    open_world w. run_more. split; [right; now exists []|].
    split; [discriminate|]. split; [exact (fun H => H) | now right].
  - (* the track listener *)
    open_world w. unfold sink_attached. destruct streams as [|stream rest]; run_more.
    + split; [right; now exists []|]. split; [tauto|]. split; [tauto | now right].
    + destruct aur as [a|]; run_more.
      * split; [right; now exists []|]. split; [tauto|]. split; [|now right].
        intros Hw a' [= <-]. destruct (Hw a eq_refl) as (e & He & Hbody).
        eexists. rewrite list_lookup_alter_eq, He. split; [reflexivity | exact Hbody].
      * split; [right; now exists []|]. split; [tauto|]. split; [tauto | now right].
Qed.

Lemma run_cons (a : Action) (acts : list Action) (w : World) :
  run (a :: acts) w = run acts (exec (perform a) w).
Proof. reflexivity. Qed.

(** X14. The playback sink in the ref is always in the document. If the
    element in [audioElement.current], when there is one, is a child of the
    document body, this is still so after any sequence of calls of the
    component functions and listeners, through any renders and with any
    answers of the browser and the network: [removeChild] in [stopSession]
    always finds its child. *)
Theorem sink_stays_attached (acts : list Action) (w : World) :
  sink_attached w -> sink_attached (run acts w).
Proof.
  revert w. induction acts as [|a acts IH]; intros w Hw; [exact Hw|].
  rewrite run_cons. apply IH. now apply perform_frame.
Qed.

(** X15. The event log is append-only between two openings of a channel.
    Over any sequence of calls that contains no [open] event, the log at the
    end is the log at the start with entries added in front: no call other
    than the open listener removes, reorders or rewrites an entry. *)
Theorem log_is_append_only (acts : list Action) (w : World) :
  ~ In Open acts ->
  grown_in_front (events w) (events (run acts w)).
Proof.
  revert w. induction acts as [|a acts IH]; intros w Hopen; [now exists []|].
  rewrite run_cons. cbn in Hopen.
  destruct (perform_frame a w) as ([Ha|(f1 & Hf1)] & _); [subst a; tauto|].
  destruct (IH (exec (perform a) w)) as (f2 & Hf2); [tauto|].
  exists (f2 ++ f1). now rewrite Hf2, Hf1, app_assoc.
Qed.

(** X16. [isSessionActive] is raised by the open listener only. If the
    session is reported active after a sequence of calls, it was active before
    or the sequence contains an [open] event: no start, send or stop sets it. *)
Theorem active_only_after_open (acts : list Action) (w : World) :
  isSessionActive (run acts w) = true ->
  In Open acts \/ isSessionActive w = true.
Proof.
  revert w. induction acts as [|a acts IH]; intros w Hact; [now right|].
  rewrite run_cons in Hact. destruct (IH _ Hact) as [Hin|Hprev]; [left; now right|].
  destruct (perform_frame a w) as (_ & Hflag & _).
  destruct (Hflag Hprev) as [->|Hw]; [left; now left | now right].
Qed.

(** X17. Only [startSession] talks to the network. Over any sequence of
    calls without a start, the request log is unchanged: sending, receiving
    and stopping never issue a request. *)
Theorem requests_come_from_starts_only (acts : list Action) (w : World) :
  (forall r env, ~ In (StartSession r env) acts) ->
  network (run acts w) = network w.
Proof.
  revert w. induction acts as [|a acts IH]; intros w Hstart; [reflexivity|].
  rewrite run_cons, IH by (intros r env Hin; apply (Hstart r env); now right).
  destruct (perform_frame a w) as (_ & _ & _ & [(r & env & ->)|Hnet]); [|exact Hnet].
  destruct (Hstart r env). now left.
Qed.

End Traces.

(** ** The exact condition of the channel state after teardown *)

(** X18. When [stopSession] clears the channel state. After a call
    through render [r] the [dataChannel] state is the one before unless the
    render holds a channel, in which case it is null: the state ends null
    exactly when the render holds a channel or the state was null already. *)
Theorem stopSession_clears_the_channel_state_iff (r : Render) (w : World) :
  dataChannel (exec (stopSession r) w)
    = match render_dataChannel r with
      | Some _ => None
      | None => dataChannel w
      end /\
  (dataChannel (exec (stopSession r) w) = None <->
   render_dataChannel r <> None \/ dataChannel w = None).
Proof.
  destruct (stopSession_effect r w) as (cs & ds & xs & ts & Hrun & _).
  unfold exec. rewrite Hrun. open_world w. run_M.
  split; [reflexivity|].
  destruct (render_dataChannel r) as [dc|]; split.
  - intros _. left. discriminate.
  - reflexivity.
  - intros H. now right.
  - intros [H|H]; [now destruct H | exact H].
Qed.

(** ** Instances *)

Lemma stopSession_releases_the_connection_witness :
  peerConnection Runs.active_world = Some 0 /\
  connections Runs.active_world !! 0
    = Some {| pc_closed := false; pc_ontrack := true; pc_senders := [Some 0];
              pc_channels := [0]; pc_localDescription := Some "v=0 offer";
              pc_remoteDescription := Some (OtherText "v=0 answer") |} /\
  tracks (exec (stopSession (current_render Runs.active_world)) Runs.active_world) !! 0
    = Some {| track_ended := true |} /\
  state_of 0 (exec (stopSession (current_render Runs.active_world)) Runs.active_world)
    = closed.
Proof.
  split; [reflexivity|]. split; [reflexivity|].
  destruct (stopSession_releases_the_connection
              (current_render Runs.active_world) Runs.active_world 0
              {| pc_closed := false; pc_ontrack := true; pc_senders := [Some 0];
                 pc_channels := [0]; pc_localDescription := Some "v=0 offer";
                 pc_remoteDescription := Some (OtherText "v=0 answer") |}
              eq_refl eq_refl) as (_ & Htracks & Hchannels).
  split.
  - apply Htracks; [now left | vm_compute; constructor].
  - apply Hchannels; [now left | vm_compute; constructor].
Defined.

Lemma stopSession_detaches_the_sink_witness :
  audioElement Runs.active_world = Some 0 /\
  audios Runs.active_world !! 0
    = Some {| autoplay := true; srcObject := None; in_body := true |} /\
  audios (exec (stopSession (current_render Runs.active_world)) Runs.active_world) !! 0
    = Some {| autoplay := true; srcObject := None; in_body := false |}.
Proof.
  split; [reflexivity|]. split; [reflexivity|].
  apply (stopSession_detaches_the_sink
           (current_render Runs.active_world) Runs.active_world 0
           {| autoplay := true; srcObject := None; in_body := true |} eq_refl eq_refl).
Defined.

Lemma sendClientEvent_passes_fields_through_witness :
  channel_ready (current_render Runs.active_world) Runs.active_world = true /\
  exists dc sent,
    render_dataChannel (current_render Runs.active_world) = Some dc /\
    events (exec (sendClientEvent (current_render Runs.active_world) Samples.amb0
                    Runs.hello) Runs.active_world)
      = JObj sent :: events Runs.active_world /\
    lookup_prop "type" sent = JStr "input_audio_buffer.clear".
Proof.
  split; [reflexivity|].
  destruct (sendClientEvent_passes_fields_through
              (current_render Runs.active_world) Samples.amb0 Runs.hello
              Runs.active_world "type" eq_refl eq_refl eq_refl)
    as (dc & sent & Hr & Hev & _ & Hsame & _).
  exists dc, sent. split; [exact Hr|]. split; [exact Hev | exact Hsame].
Defined.

Lemma failed_provisioning_constructs_nothing_witness :
  provisioning Runs.provisioning_rejected = Throw (Error "Failed to create session") /\
  idle initial_world /\
  Samples.start Runs.provisioning_rejected initial_world
  = with_console [session_error (Error "Failed to create session")]
      (with_network [sessions_request Samples.sessions_url Samples.api_key] initial_world).
Proof.
  split; [reflexivity|].
  assert (Hidle : idle initial_world) by (repeat split; reflexivity).
  split; [exact Hidle|].
  destruct (failed_provisioning_constructs_nothing
              Samples.rtc_url Samples.sessions_url Samples.api_key
              (current_render initial_world) Runs.provisioning_rejected initial_world
              (Error "Failed to create session") eq_refl)
    as (_ & _ & _ & _ & _ & Hsame).
  exact (Hsame Hidle eq_refl).
Defined.

Lemma successful_start_builds_the_session_witness :
  provisioning Samples.good_env = Normal (JStr "ek_1") /\
  env_createOffer Samples.good_env = Normal "v=0 offer" /\
  env_setLocalDescription Samples.good_env = Normal tt /\
  env_webrtc_fetch Samples.good_env
    = Normal {| ok := true; body := OtherText "v=0 answer" |} /\
  env_setRemoteDescription Samples.good_env = Normal tt /\
  dataChannel (Samples.start Samples.good_env initial_world) = Some 0 /\
  peerConnection (Samples.start Samples.good_env initial_world) = Some 0 /\
  audioElement (Samples.start Samples.good_env initial_world) = Some 0.
Proof.
  do 5 (split; [reflexivity|]).
  pose proof (successful_start_builds_the_session
                Samples.rtc_url Samples.sessions_url Samples.api_key
                (current_render initial_world) Samples.good_env initial_world
                (JStr "ek_1") "v=0 offer" {| ok := true; body := OtherText "v=0 answer" |}
                eq_refl eq_refl eq_refl eq_refl eq_refl eq_refl) as Hrun.
  unfold Samples.start, exec. rewrite Hrun. repeat split; reflexivity.
Defined.

Lemma credential_reaches_the_signaling_request_witness :
  env_sessions_fetch Samples.good_env
    = Normal {| ok := true; body := Samples.credential_body |} /\
  network (Samples.start Samples.good_env initial_world)
  = [sessions_request Samples.sessions_url Samples.api_key;
     {| req_url := "https://rtc.example/realtime?model=process.env.DEPLOYMENT";
        req_method := "POST";
        req_headers := [("Authorization", Bearer (JStr "ek_1"));
                        ("Content-Type", Literal "application/sdp")];
        req_body := OtherText "v=0 offer" |}].
Proof.
  split; [reflexivity|].
  apply (credential_reaches_the_signaling_request
           Samples.rtc_url Samples.sessions_url Samples.api_key
           (current_render initial_world) Samples.good_env initial_world
           {| ok := true; body := Samples.credential_body |}
           [("client_secret", JObj [("value", JStr "ek_1")])] [("value", JStr "ek_1")]
           "v=0 offer" eq_refl eq_refl eq_refl eq_refl eq_refl eq_refl).
Defined.

Lemma failed_start_releases_what_it_created_witness :
  provisioning Runs.signaling_rejected = Normal (JStr "ek_1") /\
  completion (startSession_try Samples.rtc_url Samples.sessions_url Samples.api_key
                Runs.signaling_rejected) initial_world
    = Throw (Error "Failed to establish WebRTC connection") /\
  state_of 0 (Samples.start Runs.signaling_rejected initial_world) = closed /\
  sent_on 0 (Samples.start Runs.signaling_rejected initial_world) = [] /\
  tracks (Samples.start Runs.signaling_rejected initial_world) !! 0
    = Some {| track_ended := true |}.
Proof.
  split; [reflexivity|]. split; [reflexivity|].
  destruct (failed_start_releases_what_it_created
              Samples.rtc_url Samples.sessions_url Samples.api_key
              (current_render initial_world) Runs.signaling_rejected initial_world
              (JStr "ek_1") (Error "Failed to establish WebRTC connection")
              eq_refl eq_refl)
    as (_ & _ & _ & _ & _ & Hstate & Hsent & _ & Htrack).
  split; [exact Hstate|]. split; [exact Hsent | exact (Htrack eq_refl)].
Defined.

Lemma sink_stays_attached_witness :
  sink_attached initial_world /\
  sink_attached
    (run Samples.rtc_url Samples.sessions_url Samples.api_key
       [StartSession (current_render initial_world) Samples.good_env; Open; Track [7]]
       initial_world).
Proof.
  assert (H0 : sink_attached initial_world) by (intros a Ha; discriminate Ha).
  split; [exact H0|].
  apply (sink_stays_attached Samples.rtc_url Samples.sessions_url Samples.api_key _ _ H0).
Defined.

Lemma log_is_append_only_witness :
  ~ In Open [SendClientEvent (current_render Runs.active_world) Samples.amb0 Runs.hello;
             Message Runs.amb1 Runs.inbound_plain] /\
  grown_in_front (events Runs.active_world)
    (events (run Samples.rtc_url Samples.sessions_url Samples.api_key
               [SendClientEvent (current_render Runs.active_world) Samples.amb0 Runs.hello;
                Message Runs.amb1 Runs.inbound_plain]
               Runs.active_world)).
Proof.
  assert (Hno : ~ In Open
                  [SendClientEvent (current_render Runs.active_world) Samples.amb0 Runs.hello;
                   Message Runs.amb1 Runs.inbound_plain]).
  { intros [H|[H|[]]]; discriminate H. }
  split; [exact Hno|].
  apply (log_is_append_only Samples.rtc_url Samples.sessions_url Samples.api_key _ _ Hno).
Defined.

Lemma active_only_after_open_witness :
  isSessionActive
    (run Samples.rtc_url Samples.sessions_url Samples.api_key
       [StartSession (current_render initial_world) Samples.good_env; Open]
       initial_world) = true /\
  (In Open [StartSession (current_render initial_world) Samples.good_env; Open] \/
   isSessionActive initial_world = true).
Proof.
  split; [reflexivity|].
  apply (active_only_after_open Samples.rtc_url Samples.sessions_url Samples.api_key).
  reflexivity.
Defined.

Lemma requests_come_from_starts_only_witness :
  (forall r env,
     ~ In (StartSession r env)
         [StopSession (current_render Runs.active_world);
          Message Runs.amb1 Runs.inbound_plain]) /\
  network (run Samples.rtc_url Samples.sessions_url Samples.api_key
             [StopSession (current_render Runs.active_world);
              Message Runs.amb1 Runs.inbound_plain]
             Runs.active_world)
  = network Runs.active_world.
Proof.
  assert (Hno : forall r env,
            ~ In (StartSession r env)
                [StopSession (current_render Runs.active_world);
                 Message Runs.amb1 Runs.inbound_plain]).
  { intros r env [H|[H|[]]]; discriminate H. }
  split; [exact Hno|].
  apply (requests_come_from_starts_only
           Samples.rtc_url Samples.sessions_url Samples.api_key _ _ Hno).
Defined.
